(** * The WinDaq reader of [windaq_to_excel_converter.py]

    A shallow embedding of the class [windaq]: the constructor, which decodes
    the header, the channel table, the user annotations and the sample view of
    a [.wdq] file, and the accessors [data], [unit] and [chAnnotation].

    Python exceptions are values of [exn] carried by the [result] monad.
    Python floats are IEEE binary64 numbers, given by [spec_float] and the
    operations of [SpecFloat] at precision 53 and maximal exponent 1024.
    The constructor starts from the contents of the file, a bytes object; the
    one thing it takes from the process besides is the local time zone, which
    is the [environment] argument of [decode]. *)

From Stdlib Require Import ZArith List Bool String Ascii Lia.
From Stdlib Require Import Strings.Byte.
From Stdlib Require Import SpecFloat.
From Stdlib Require Decimal DecimalString DecimalZ.
Import ListNotations.
Open Scope Z_scope.

(** ** Exceptions and the result monad *)

Inductive exn : Type :=
| StructError          (* struct.error *)
| ZeroDivisionError
| UnicodeDecodeError
| ValueError
| IndexError
| OverflowError.

Inductive result (A : Type) : Type :=
| Ok (a : A)
| Raise (e : exn).

Arguments Ok {A} a.
Arguments Raise {A} e.

Definition bind {A B : Type} (r : result A) (k : A -> result B) : result B :=
  match r with
  | Ok a => k a
  | Raise e => Raise e
  end.

Notation "x <- r ;; k" := (bind r (fun x => k))
  (at level 61, r at next level, right associativity).

Definition succeeds {A : Type} (r : result A) : Prop := exists a, r = Ok a.
Definition fails {A : Type} (r : result A) : Prop := exists e, r = Raise e.

(** ** Bytes objects *)

Definition bytes := list byte.

Definition byte_val (b : byte) : Z := Z.of_N (Byte.to_N b).

Definition len {A : Type} (l : list A) : Z := Z.of_nat (List.length l).

(** Little-endian unsigned value of a run of bytes. *)
Fixpoint le_uint (bs : bytes) : Z :=
  match bs with
  | [] => 0
  | b :: rest => byte_val b + 256 * le_uint rest
  end.

(** Two's complement reading of a [w]-bit unsigned value. *)
Definition to_signed (w : Z) (z : Z) : Z :=
  if z <? 2 ^ (w - 1) then z else z - 2 ^ w.

(** ** Python floats *)

Definition float := spec_float.

Definition fmul : float -> float -> float := SFmul 53 1024.
Definition fadd : float -> float -> float := SFadd 53 1024.
Definition fdiv : float -> float -> float := SFdiv 53 1024.

(** [float(z)], and more generally the double nearest to [m * 2^e]. *)
Definition float_of_int (z : Z) : float := binary_normalize 53 1024 z 0 false.
Definition float_scaled (m e : Z) : float := binary_normalize 53 1024 m e false.

(** The literal [0.25]. *)
Definition quarter : float := float_scaled 1 (-2).

(** The value held by an IEEE interchange pattern with [mw] fraction bits and
    [ew] exponent bits; [struct] widens a binary32 pattern to a Python float
    without loss, so one decoder serves the formats [<f] and [<d]. *)
Definition ieee_decode (mw ew bits : Z) : float :=
  let sign := Z.testbit bits (mw + ew) in
  let expo := Z.land (Z.shiftr bits mw) (Z.ones ew) in
  let frac := Z.land bits (Z.ones mw) in
  let bias := 2 ^ (ew - 1) - 1 in
  if expo =? 0 then
    match frac with
    | Zpos m => S754_finite sign m (1 - bias - mw)
    | _ => S754_zero sign
    end
  else if expo =? Z.ones ew then
    if frac =? 0 then S754_infinity sign else S754_nan
  else
    match frac + 2 ^ mw with
    | Zpos m => S754_finite sign m (expo - bias - mw)
    | _ => S754_nan
    end.

(** [a / b] on Python ints (true division).  Both operands of the only
    division of the reader are below [2^53], hence exact as doubles, and the
    quotient of the two doubles is the correctly rounded quotient. *)
Definition int_truediv (a b : Z) : result float :=
  if b =? 0 then Raise ZeroDivisionError
  else Ok (fdiv (float_of_int a) (float_of_int b)).

(** [int(x)]: truncation toward zero. *)
Definition int_of_float (x : float) : result Z :=
  match x with
  | S754_zero _ => Ok 0
  | S754_infinity _ => Raise OverflowError
  | S754_nan => Raise ValueError
  | S754_finite s m e =>
      let q := if 0 <=? e then Z.shiftl (Zpos m) e else Z.shiftr (Zpos m) (- e) in
      Ok (if s then - q else q)
  end.

(** [numpy.floor] on one double. *)
Definition np_floor (x : float) : float :=
  match x with
  | S754_finite s m e =>
      if 0 <=? e then x
      else
        let q := Z.shiftr (if s then Zneg m else Zpos m) (- e) in
        float_of_int q
  | _ => x
  end.

(** ** [struct.unpack_from] *)

(** The bounds discipline of [unpack_from] for a format of [size] bytes: a
    negative offset counts from the end of the buffer. *)
Definition unpack_raw (size : Z) (buf : bytes) (offset : Z) : result bytes :=
  let n := len buf in
  off <- (if offset <? 0 then
            if 0 <? offset + size then Raise StructError
            else if offset + n <? 0 then Raise StructError
            else Ok (offset + n)
          else Ok offset) ;;
  if n - off <? size then Raise StructError
  else Ok (firstn (Z.to_nat size) (skipn (Z.to_nat off) buf)).

Definition unpack_B (buf : bytes) (offset : Z) : result Z :=
  bs <- unpack_raw 1 buf offset ;; Ok (le_uint bs).

Definition unpack_UI (buf : bytes) (offset : Z) : result Z :=
  bs <- unpack_raw 2 buf offset ;; Ok (le_uint bs).

Definition unpack_UL (buf : bytes) (offset : Z) : result Z :=
  bs <- unpack_raw 4 buf offset ;; Ok (le_uint bs).

Definition unpack_I (buf : bytes) (offset : Z) : result Z :=
  bs <- unpack_raw 2 buf offset ;; Ok (to_signed 16 (le_uint bs)).

Definition unpack_L (buf : bytes) (offset : Z) : result Z :=
  bs <- unpack_raw 4 buf offset ;; Ok (to_signed 32 (le_uint bs)).

Definition unpack_F (buf : bytes) (offset : Z) : result float :=
  bs <- unpack_raw 4 buf offset ;; Ok (ieee_decode 23 8 (le_uint bs)).

Definition unpack_D (buf : bytes) (offset : Z) : result float :=
  bs <- unpack_raw 8 buf offset ;; Ok (ieee_decode 52 11 (le_uint bs)).

(** Format ["c"]: one bytes object of length one. *)
Definition unpack_c (buf : bytes) (offset : Z) : result byte :=
  bs <- unpack_raw 1 buf offset ;;
  match bs with
  | b :: _ => Ok b
  | [] => Raise StructError
  end.

(** Format ["cccccc"]: a tuple of six bytes objects of length one. *)
Definition unpack_cccccc (buf : bytes) (offset : Z) : result (list byte) :=
  unpack_raw 6 buf offset.

(** ** [datetime] *)

Record datetime : Type := mk_datetime {
  year : Z; month : Z; day : Z; hour : Z; minute : Z; second : Z
}.

(** Proleptic Gregorian date of a day count relative to 1970-01-01. *)
Definition civil_from_days (z0 : Z) : Z * Z * Z :=
  let z := z0 + 719468 in
  let era := z / 146097 in
  let doe := z mod 146097 in
  let yoe := (doe - doe / 1460 + doe / 36524 - doe / 146096) / 365 in
  let doy := doe - (365 * yoe + yoe / 4 - yoe / 100) in
  let mp := (5 * doy + 2) / 153 in
  let d := doy - (153 * mp + 2) / 5 + 1 in
  let m := if mp <? 10 then mp + 3 else mp - 9 in
  (yoe + era * 400 + (if m <=? 2 then 1 else 0), m, d).

Definition utcfromtimestamp (t : Z) : datetime :=
  let '(y, m, d) := civil_from_days (t / 86400) in
  let s := t mod 86400 in
  mk_datetime y m d (s / 3600) (s mod 3600 / 60) (s mod 60).

(** What [datetime.fromtimestamp] takes from the process it runs in: the
    offset of local time from UTC, in seconds, in force at an instant. *)
Record environment : Type := mk_environment {
  utcoffset : Z -> Z
}.

Definition fromtimestamp (env : environment) (t : Z) : datetime :=
  utcfromtimestamp (t + utcoffset env t).

Definition digit (d : Z) : ascii := ascii_of_nat (48 + Z.to_nat (d mod 10)).

Definition digits2 (n : Z) : string :=
  String (digit (n / 10)) (String (digit n) EmptyString).

Definition digits4 (n : Z) : string :=
  String (digit (n / 1000)) (String (digit (n / 100)) (digits2 n)).

(** [strftime('%Y-%m-%d %H:%M:%S')]; a 32-bit epoch in a zone less than a day
    from UTC falls in the years 1901 to 2038, which take four digits. *)
Definition strftime (dt : datetime) : string :=
  (digits4 (year dt) ++ "-" ++ digits2 (month dt) ++ "-" ++ digits2 (day dt)
   ++ " " ++ digits2 (hour dt) ++ ":" ++ digits2 (minute dt)
   ++ ":" ++ digits2 (second dt))%string.

(** ** Python strings *)

(** [b.decode("utf-8")] for a bytes object [b] of length one: a lone byte is
    valid UTF-8 exactly when it is a 7-bit code. *)
Definition decode_utf8 (b : byte) : result ascii :=
  if byte_val b <? 128 then Ok (ascii_of_byte b) else Raise UnicodeDecodeError.

Definition is_nul (c : ascii) : bool := (N_of_ascii c =? 0)%N.

(** [s.split('\x00')] *)
Fixpoint split_nul (s : string) : list string :=
  match s with
  | EmptyString => [EmptyString]
  | String c rest =>
      if is_nul c then EmptyString :: split_nul rest
      else
        match split_nul rest with
        | w :: ws => String c w :: ws
        | [] => [String c EmptyString]
        end
  end.

(** [s.replace('\x00', '')] *)
Fixpoint remove_nul (s : string) : string :=
  match s with
  | EmptyString => EmptyString
  | String c rest => if is_nul c then remove_nul rest else String c (remove_nul rest)
  end.

(** [str.isspace] on the code points below 256. *)
Definition isspace (c : ascii) : bool :=
  let n := Z.of_N (N_of_ascii c) in
  ((9 <=? n) && (n <=? 13)) || ((28 <=? n) && (n <=? 32))
  || (n =? 133) || (n =? 160).

Fixpoint lstrip (s : list ascii) : list ascii :=
  match s with
  | c :: rest => if isspace c then lstrip rest else s
  | [] => []
  end.

(** [s.strip()] *)
Definition strip (s : string) : string :=
  string_of_list_ascii
    (rev (lstrip (rev (lstrip (list_ascii_of_string s))))).

(** ** Sequences *)

(** [l[i]] on a Python list: a negative index counts from the end. *)
Definition getitem {A : Type} (l : list A) (i : Z) : result A :=
  let n := len l in
  let j := if i <? 0 then i + n else i in
  if (j <? 0) || (n <=? j) then Raise IndexError
  else
    match nth_error l (Z.to_nat j) with
    | Some a => Ok a
    | None => Raise IndexError
    end.

Fixpoint take_stride {A : Type} (l : list A) (i step : Z) (count : nat) : list A :=
  match count with
  | O => []
  | S c =>
      match nth_error l (Z.to_nat i) with
      | Some a => a :: take_stride l (i + step) step c
      | None => []
      end
  end.

(** [a[start::step]] on a one-dimensional array: the start is brought into
    the array as slices do, and the elements are taken to the end ([step > 0])
    or to the beginning ([step < 0]). *)
Definition slice_from {A : Type} (a : list A) (start step : Z) : result (list A) :=
  let n := len a in
  if step =? 0 then Raise ValueError
  else if 0 <? step then
    let s0 := if start <? 0 then Z.max 0 (start + n) else Z.min start n in
    Ok (take_stride a s0 step (Z.to_nat ((n - s0 + step - 1) / step)))
  else
    let s0 := if start <? 0 then Z.max (-1) (start + n) else Z.min start (n - 1) in
    Ok (take_stride a s0 step (Z.to_nat ((s0 + 1 + (- step) - 1) / (- step)))).

Fixpoint read_int16s (bs : bytes) (count : nat) {struct count} : list Z :=
  match count with
  | O => []
  | S c =>
      match bs with
      | lo :: hi :: rest => to_signed 16 (le_uint [lo; hi]) :: read_int16s rest c
      | _ => []
      end
  end.

(** [numpy.frombuffer(buf, dtype='<i2', count=count, offset=offset)] *)
Definition frombuffer_int16 (buf : bytes) (count offset : Z) : result (list Z) :=
  let ts := len buf in
  if (offset <? 0) || (ts <? offset) then Raise ValueError
  else
    let s := ts - offset in
    n <- (if count <? 0 then
            if s mod 2 =? 0 then Ok (s / 2) else Raise ValueError
          else if s <? count * 2 then Raise ValueError
          else Ok count) ;;
    Ok (read_int16s (skipn (Z.to_nat offset) buf) (Z.to_nat n)).

(** Python's [for i in range(start, start + n)] threading a state. *)
Fixpoint for_range {St : Type} (body : Z -> St -> result St)
    (n : nat) (start : Z) (s : St) : result St :=
  match n with
  | O => Ok s
  | S n' => s' <- body start s ;; for_range body n' (start + 1) s'
  end.

(** ** The class [windaq] *)

(** The attributes set by the part of [__init__] headed "Read header
    information". *)
Record header : Type := mk_header {
  nChannels : Z;
  _hChannels : Z;
  _hChannelSize : Z;
  _headSize : Z;
  _dataSize : Z;
  nSample : float;
  _trailerSize : Z;
  _annoSize : Z;
  timeStep : float;
  fileCreatedRaw : datetime;
  fileCreated : string;
  fileWritten : string;
  _packed : Z;
  _HiRes : Z
}.

(** The seven lists filled by the part headed "read channel info". *)
Record channel_info : Type := mk_channel_info {
  scalingSlope : list float;
  scalingIntercept : list float;
  calScaling : list float;
  calIntercept : list float;
  engUnits : list (list byte);
  sampleRateDivisor : list Z;
  phyChannel : list Z
}.

Record windaq : Type := mk_windaq {
  _fcontents : bytes;
  head : header;
  chans : channel_info;
  _annotations : list string;
  npdata : list Z
}.

Definition no_channels : channel_info := mk_channel_info [] [] [] [] [] [] [].

(** The channel count: element 0, whole or masked, by the value of element 2. *)
Definition read_nChannels (buf : bytes) : result Z :=
  version <- unpack_UI buf 2 ;;
  if 144 <=? version then unpack_B buf 0
  else b <- unpack_B buf 0 ;; Ok (Z.land b 31).

Definition read_header (env : environment) (buf : bytes) : result header :=
  nCh <- read_nChannels buf ;;
  hCh <- unpack_B buf 4 ;;
  hChSize <- unpack_B buf 5 ;;
  headSz <- unpack_I buf 6 ;;
  dataSz <- unpack_UL buf 8 ;;
  nSmp <- int_truediv dataSz (2 * nCh) ;;
  trailerSz <- unpack_UL buf 12 ;;
  annoSz <- unpack_UI buf 16 ;;
  tStep <- unpack_D buf 28 ;;
  e14 <- unpack_L buf 36 ;;
  e15 <- unpack_L buf 40 ;;
  let created_raw := utcfromtimestamp e14 in
  let created := strftime (fromtimestamp env e14) in
  let written := strftime (fromtimestamp env e15) in
  e27 <- unpack_UI buf 100 ;;
  let packed := Z.shiftr (Z.land e27 16384) 14 in
  e27' <- unpack_UI buf 100 ;;
  let hires := Z.land e27' 2 in
  Ok (mk_header nCh hCh hChSize headSz dataSz nSmp trailerSz annoSz tStep
        created_raw created written packed hires).

(** One turn of the loop over [range(0, self.nChannels)]. *)
Definition read_channel (buf : bytes) (h : header) (channel : Z)
    (t : channel_info) : result channel_info :=
  let channelOffset := _hChannels h + _hChannelSize h * channel in
  slope <- unpack_F buf channelOffset ;;
  icpt <- unpack_F buf (channelOffset + 4) ;;
  cal <- unpack_D buf (channelOffset + 4 + 4) ;;
  calb <- unpack_D buf (channelOffset + 4 + 4 + 8) ;;
  units <- unpack_cccccc buf (channelOffset + 4 + 4 + 8 + 8) ;;
  divisor <- (if _packed h =? 0 then Ok 1
              else unpack_B buf (channelOffset + 4 + 4 + 8 + 8 + 6 + 1)) ;;
  phy <- unpack_B buf (channelOffset + 4 + 4 + 8 + 8 + 6 + 1 + 1) ;;
  Ok (mk_channel_info
        (scalingSlope t ++ [slope])
        (scalingIntercept t ++ [icpt])
        (calScaling t ++ [cal])
        (calIntercept t ++ [calb])
        (engUnits t ++ [units])
        (sampleRateDivisor t ++ [divisor])
        (phyChannel t ++ [phy])).

Definition read_channels (buf : bytes) (h : header) : result channel_info :=
  for_range (read_channel buf h) (Z.to_nat (nChannels h)) 0 no_channels.

(** One turn of the loop over [range(0, self._annoSize)]. *)
Definition read_annotation_char (buf : bytes) (aOffset : Z) (i : Z)
    (aTemp : string) : result string :=
  b <- unpack_c buf (aOffset + i) ;;
  c <- decode_utf8 b ;;
  Ok (aTemp ++ String c EmptyString)%string.

Definition read_annotations (buf : bytes) (h : header) : result (list string) :=
  let aOffset := _headSize h + _dataSize h + _trailerSize h in
  aTemp <- for_range (read_annotation_char buf aOffset)
             (Z.to_nat (_annoSize h)) 0 EmptyString ;;
  Ok (split_nul aTemp).

Definition read_samples (buf : bytes) (h : header) : result (list Z) :=
  count <- int_of_float (fmul (nSample h) (float_of_int (nChannels h))) ;;
  frombuffer_int16 buf count (_headSize h).

(** [windaq.__init__], from the contents of the file on. *)
Definition decode (env : environment) (buf : bytes) : result windaq :=
  h <- read_header env buf ;;
  t <- read_channels buf h ;;
  annotations <- read_annotations buf h ;;
  samples <- read_samples buf h ;;
  Ok (mk_windaq buf h t annotations samples).

(** [windaq.data].  The product of the int16 view with the Python float
    [0.25] is an array of doubles; [scale_sample] is what the branch on
    [self._HiRes] computes for one element. *)
Definition scale_sample (hires : Z) (r : Z) : float :=
  if hires =? 0 then np_floor (fmul (float_of_int r) quarter)
  else fmul (float_of_int r) quarter.

Definition data (w : windaq) (channelNumber : Z) : result (list float) :=
  d <- slice_from (npdata w) (channelNumber - 1) (nChannels (head w)) ;;
  let temp := map (scale_sample (_HiRes (head w))) d in
  cal <- getitem (calScaling (chans w)) (channelNumber - 1) ;;
  calb <- getitem (calIntercept (chans w)) (channelNumber - 1) ;;
  Ok (map (fun t => fadd (fmul cal t) calb) temp).

(** [windaq.unit] *)
Fixpoint decode_all (bs : list byte) (acc : string) : result string :=
  match bs with
  | [] => Ok acc
  | b :: rest =>
      c <- decode_utf8 b ;; decode_all rest (acc ++ String c EmptyString)%string
  end.

Definition unit (w : windaq) (channelNumber : Z) : result string :=
  tag <- getitem (engUnits (chans w)) (channelNumber - 1) ;;
  u <- decode_all tag EmptyString ;;
  Ok (strip (remove_nul u)).

(** [windaq.chAnnotation] *)
Definition chAnnotation (w : windaq) (channelNumber : Z) : result string :=
  getitem (_annotations w) (channelNumber - 1).

(** [windaq.time]; [arange] is [numpy.arange(0, m)]. *)
Definition arange (m : Z) : list Z := map Z.of_nat (seq 0 (Z.to_nat m)).

Definition time (w : windaq) : result (list float) :=
  m <- int_of_float (nSample (head w)) ;;
  Ok (map (fun i => fmul (float_of_int i) (timeStep (head w))) (arange m)).

(** ** [convert_windaq_direct] *)

(** [f"{n}"] for an int. *)
Definition str_of_int (n : Z) : string :=
  DecimalString.NilZero.string_of_int (Z.to_int n).

(** The truth value of a string. *)
Definition nonempty (s : string) : bool :=
  match s with
  | EmptyString => false
  | String _ _ => true
  end.

(** The name given to the column of channel [ch] (lines 266 to 272). *)
Definition column_name (ch : Z) (annotation unit_text : string) : string :=
  let col_name :=
    if nonempty annotation && nonempty (strip annotation)
    then ("Channel_" ++ str_of_int ch ++ "_" ++ strip annotation)%string
    else ("Channel_" ++ str_of_int ch)%string in
  if nonempty unit_text && nonempty (strip unit_text)
  then (col_name ++ "_" ++ strip unit_text)%string
  else col_name.

(** A column of the table: its name and its values. *)
Definition column : Type := string * list float.

(** [d[key] = value] on a dict, kept in insertion order: a key already
    present keeps its place and takes the new value. *)
Fixpoint dict_set (d : list column) (key : string) (value : list float)
    : list column :=
  match d with
  | [] => [(key, value)]
  | (k, v) :: rest =>
      if String.eqb key k then (key, value) :: rest
      else (k, v) :: dict_set rest key value
  end.

(** One turn of the loop over [range(1, wdq.nChannels + 1)]. *)
Definition add_channel (wdq : windaq) (ch : Z) (df_data : list column)
    : result (list column) :=
  channel_data <- data wdq ch ;;
  unit_text <- unit wdq ch ;;
  annotation <- chAnnotation wdq ch ;;
  Ok (dict_set df_data (column_name ch annotation unit_text) channel_data).

(** [pd.DataFrame(df_data)] for a dict of one-dimensional arrays: the columns
    in the order of the dict, refused when the arrays differ in length. *)
Definition DataFrame (df_data : list column) : result (list column) :=
  match df_data with
  | [] => Ok []
  | (_, v) :: rest =>
      if forallb (fun c => Nat.eqb (List.length (snd c)) (List.length v)) rest
      then Ok df_data
      else Raise ValueError
  end.

(** [df.rename(columns={old: new})] *)
Definition rename (old new : string) (df : list column) : list column :=
  map (fun c => if String.eqb (fst c) old then (new, snd c) else c) df.

(** [convert_windaq_direct], from the contents of the file to the DataFrame
    that is handed to [to_excel]; the paths, the log and the writing of the
    workbook are left out, the expressions evaluated for the log are kept
    for the exceptions they raise. *)
Definition convert_windaq_direct (env : environment) (contents : bytes)
    : result (list column) :=
  wdq <- decode env contents ;;
  _ <- int_of_float (nSample (head wdq)) ;;
  time_data <- time wdq ;;
  _ <- getitem time_data 0 ;;
  _ <- getitem time_data (-1) ;;
  df_data <- for_range (add_channel wdq) (Z.to_nat (nChannels (head wdq))) 1
               [("Time_seconds"%string, time_data)] ;;
  df <- DataFrame df_data ;;
  Ok (if nChannels (head wdq) =? 1 then
        match filter (fun col => negb (String.eqb col "Time_seconds"))
                (map fst df) with
        | first :: _ => rename first "Current" df
        | [] => df
        end
      else df).

(** ** Sample files *)

Definition byte_of_Z (z : Z) : byte :=
  match Byte.of_N (Z.to_N (z mod 256)) with
  | Some b => b
  | None => x00
  end.

(** The [w] little-endian bytes of [z], as numbers. *)
Definition le_bytes (w : nat) (z : Z) : list Z :=
  map (fun i => (z / 2 ^ (8 * Z.of_nat i)) mod 256) (seq 0 w).

(** Overwrite [l] from position [off] on with [vals]. *)
Fixpoint poke (l : list Z) (off : nat) (vals : list Z) : list Z :=
  match off, l with
  | O, _ => vals ++ skipn (List.length vals) l
  | S o, x :: t => x :: poke t o vals
  | S _, [] => []
  end.

Definition pokes (l : list Z) (edits : list (nat * list Z)) : list Z :=
  fold_left (fun acc e => poke acc (fst e) (snd e)) edits l.

(** A one-channel file of 168 bytes: a 146-byte header whose channel entry
    sits at offset 110 (calibration 1.0 and 0.0, unit tag "mA", bytes 7, 9, 3
    at entry offsets 30, 31, 32), nine samples -4 .. 4, the annotation "Ch1".
    [flags] is element 27 and [tail] overwrites the file from offset 164. *)
Definition sample_file (flags : Z) (tail : list Z) : bytes :=
  map byte_of_Z
    (pokes (repeat 0 168)
       [ (0%nat, [1]); (4%nat, [110; 36]); (6%nat, le_bytes 2 146);
         (8%nat, le_bytes 4 18); (16%nat, le_bytes 2 4);
         (28%nat, le_bytes 8 0x3F50624DD2F1A9FC);
         (36%nat, le_bytes 4 1700000000); (40%nat, le_bytes 4 1700000100);
         (100%nat, le_bytes 2 flags);
         (118%nat, le_bytes 8 0x3FF0000000000000);
         (134%nat, [109; 65; 0; 0; 0; 0; 7; 9; 3]);
         (146%nat, flat_map (le_bytes 2) [-4; -3; -2; -1; 0; 1; 2; 3; 4]);
         (164%nat, tail) ]).

Definition standard_file : bytes := sample_file 0 [67; 104; 49; 0].
Definition hires_file : bytes := sample_file 2 [67; 104; 49; 0].
Definition packed_file : bytes := sample_file 16384 [67; 104; 49; 0].

(** The annotation holds the two bytes of U+00E9 in UTF-8. *)
Definition accented_file : bytes := sample_file 0 [195; 169; 49; 0].

(** A 102-byte buffer: [count_byte] channels of stride 0 read from offset 0,
    no samples, no annotation; [version] is element 2. *)
Definition minimal_file (count_byte version : Z) : bytes :=
  map byte_of_Z
    (pokes (repeat 0 102) [ (0%nat, [count_byte]); (2%nat, le_bytes 2 version) ]).

(** The one-channel file with a data size of 17 bytes, not a multiple of 2. *)
Definition odd_file : bytes :=
  map byte_of_Z
    (pokes (map byte_val standard_file) [ (8%nat, le_bytes 4 17) ]).


Definition utc : environment := mk_environment (fun _ => 0).
Definition pacific : environment := mk_environment (fun _ => -28800).

(** ** Vocabulary of the statements *)

(** Offset of the entry of a channel, counted from 0, in the channel table. *)
Definition channel_offset (h : header) (channel : Z) : Z :=
  _hChannels h + _hChannelSize h * channel.

(** The entry of channel [k] in column [col], as read from the buffer. *)
Definition reads_as {X : Type} (col : list X) (k : Z) (r : result X) : Prop :=
  exists x, getitem col k = Ok x /\ r = Ok x.

(** The layout that C8 words: the fields one after the other, the divisor
    byte present only in a packed file, the physical channel number next. *)
Definition claimed_divisor_offset : Z := 4 + 4 + 8 + 8 + 6.
Definition claimed_phyChannel_offset (packed : Z) : Z :=
  4 + 4 + 8 + 8 + 6 + (if packed =? 0 then 0 else 1).

(** The value that C1 words for one raw sample. *)
Definition claimed_value (high_resolution : bool)
    (cal_scale cal_intercept : float) (r : Z) : float :=
  if high_resolution
  then fadd (fmul cal_scale (fmul (float_of_int r) quarter)) cal_intercept
  else fadd (fmul cal_scale (np_floor (fmul (float_of_int r) quarter))) cal_intercept.

Definition one : float := float_of_int 1.
Definition zero : float := float_of_int 0.

(** Floats that carry no minus sign. *)
Definition sign_clear (x : float) : Prop :=
  match x with
  | S754_zero s | S754_infinity s | S754_finite s _ _ => s = false
  | S754_nan => True
  end.

(** Equality test on floats, sign of zero included. *)
Definition float_eqb (x y : float) : bool :=
  match x, y with
  | S754_zero a, S754_zero b => Bool.eqb a b
  | S754_infinity a, S754_infinity b => Bool.eqb a b
  | S754_nan, S754_nan => true
  | S754_finite a m e, S754_finite b m' e' =>
      Bool.eqb a b && Pos.eqb m m' && Z.eqb e e'
  | _, _ => false
  end.

(** [p] holds of [lo], [lo + 1], ..., [lo + n - 1]. *)
Fixpoint all_from (p : Z -> bool) (lo : Z) (n : nat) : bool :=
  match n with
  | O => true
  | S n' => p lo && all_from p (lo + 1) n'
  end.

(** The image of an outcome under a function of the recording. *)
Definition result_map {A B : Type} (f : A -> B) (r : result A) : result B :=
  match r with
  | Ok a => Ok (f a)
  | Raise e => Raise e
  end.

(** The header with its two local-time strings replaced. *)
Definition with_local_times (created written : string) (h : header) : header :=
  mk_header (nChannels h) (_hChannels h) (_hChannelSize h) (_headSize h)
    (_dataSize h) (nSample h) (_trailerSize h) (_annoSize h) (timeStep h)
    (fileCreatedRaw h) created written (_packed h) (_HiRes h).

Definition forget_local_times (w : windaq) : windaq :=
  mk_windaq (_fcontents w) (with_local_times EmptyString EmptyString (head w))
    (chans w) (_annotations w) (npdata w).

(** The character NUL, and [NUL.join(parts)]. *)
Definition NUL : ascii := "000"%char.

Fixpoint join_nul (parts : list string) : string :=
  match parts with
  | [] => EmptyString
  | [p] => p
  | p :: rest => (p ++ String NUL (join_nul rest))%string
  end.

(** The text of a run of 7-bit bytes. *)
Definition text_of_bytes (bs : list byte) : string :=
  string_of_list_ascii (map ascii_of_byte bs).

(** The string holds a NUL character. *)
Definition has_nul (s : string) : bool :=
  existsb is_nul (list_ascii_of_string s).

(** The list neither begins nor ends with a whitespace character. *)
Definition clean_ends (l : list ascii) : Prop :=
  (forall c t, l = c :: t -> isspace c = false) /\
  (forall t c, l = t ++ [c] -> isspace c = false).

(** [strip] on the list of characters. *)
Definition strip_list (l : list ascii) : list ascii :=
  rev (lstrip (rev (lstrip l))).

(** The character is a decimal digit. *)
Definition is_digit (c : ascii) : bool :=
  let n := N_of_ascii c in ((48 <=? n) && (n <=? 57))%N.

Fixpoint all_digits (s : string) : bool :=
  match s with
  | EmptyString => true
  | String c rest => is_digit c && all_digits rest
  end.

(** The string is empty or begins with a character that is no digit. *)
Definition no_leading_digit (s : string) : Prop :=
  match s with
  | EmptyString => True
  | String c _ => is_digit c = false
  end.


(** * Properties *)

(** ** The result monad *)

Lemma bind_Ok_inv {A B : Type} (r : result A) (k : A -> result B) (b : B) :
  bind r k = Ok b -> exists a, r = Ok a /\ k a = Ok b.
Proof.
  destruct r as [a | e]; simpl; intros H; [exists a; auto | discriminate].
Qed.

Lemma bind_Raise_inv {A B : Type} (r : result A) (k : A -> result B) (e : exn) :
  bind r k = Raise e -> r = Raise e \/ exists a, r = Ok a /\ k a = Raise e.
Proof.
  destruct r as [a | e']; simpl; intros H; [right; exists a; auto | left; congruence].
Qed.

Lemma Ok_inj {A : Type} (a b : A) : Ok a = Ok b -> a = b.
Proof. congruence. Qed.

Lemma result_cases {A : Type} (r : result A) : succeeds r \/ fails r.
Proof.
  destruct r as [a | e]; [left; exists a | right; exists e]; reflexivity.
Qed.

Lemma succeeds_not_fails {A : Type} (r : result A) : succeeds r -> ~ fails r.
Proof.
  intros [a Ha] [e He]; congruence.
Qed.

(** Peel the leading binds of a successful computation. *)
Ltac inv_bind H :=
  repeat (let x := fresh "x" in
          let Hx := fresh "Hx" in
          apply bind_Ok_inv in H; destruct H as (x & Hx & H)).

(** ** Byte values *)

Lemma len_nonneg {A : Type} (l : list A) : 0 <= len l.
Proof. unfold len; lia. Qed.

Lemma byte_val_range (b : byte) : 0 <= byte_val b < 256.
Proof.
  unfold byte_val. pose proof (Byte.to_N_bounded b). lia.
Qed.

Lemma le_uint_nil : le_uint [] = 0.
Proof. reflexivity. Qed.

Lemma le_uint_cons (b : byte) (rest : bytes) :
  le_uint (b :: rest) = byte_val b + 256 * le_uint rest.
Proof. reflexivity. Qed.

Lemma le_uint_range (bs : bytes) : 0 <= le_uint bs < 256 ^ len bs.
Proof.
  induction bs as [| b rest IH].
  - simpl; lia.
  - unfold len in *. rewrite le_uint_cons. cbn [List.length].
    rewrite Nat2Z.inj_succ, Z.pow_succ_r by lia.
    pose proof (byte_val_range b). lia.
Qed.

Lemma to_signed_16_range (z : Z) :
  0 <= z < 65536 -> -32768 <= to_signed 16 z <= 32767.
Proof.
  intros Hz. unfold to_signed.
  change (2 ^ (16 - 1)) with 32768. change (2 ^ 16) with 65536.
  destruct (z <? 32768) eqn:E; [apply Z.ltb_lt in E | apply Z.ltb_ge in E]; lia.
Qed.

(** ** [unpack_from] *)

Lemma unpack_raw_in_range (size : Z) (buf : bytes) (offset : Z) :
  0 <= offset -> offset + size <= len buf ->
  unpack_raw size buf offset
  = Ok (firstn (Z.to_nat size) (skipn (Z.to_nat offset) buf)).
Proof.
  intros H0 H1. unfold unpack_raw.
  destruct (offset <? 0) eqn:E; [apply Z.ltb_lt in E; lia |].
  simpl. destruct (len buf - offset <? size) eqn:E2; [apply Z.ltb_lt in E2; lia |].
  reflexivity.
Qed.

Lemma unpack_raw_beyond (size : Z) (buf : bytes) (offset : Z) :
  0 <= offset -> len buf < offset + size ->
  unpack_raw size buf offset = Raise StructError.
Proof.
  intros H0 H1. unfold unpack_raw.
  destruct (offset <? 0) eqn:E; [apply Z.ltb_lt in E; lia |].
  simpl. destruct (len buf - offset <? size) eqn:E2; [reflexivity |].
  apply Z.ltb_ge in E2; lia.
Qed.

Lemma unpack_raw_Ok_inv (size : Z) (buf bs : bytes) (offset : Z) :
  0 <= offset -> unpack_raw size buf offset = Ok bs ->
  offset + size <= len buf /\
  bs = firstn (Z.to_nat size) (skipn (Z.to_nat offset) buf).
Proof.
  intros H0 H.
  destruct (Z_le_gt_dec (offset + size) (len buf)) as [Hle | Hgt].
  - rewrite unpack_raw_in_range in H by assumption.
    injection H as <-. auto.
  - rewrite unpack_raw_beyond in H by lia. discriminate.
Qed.

Lemma unpack_raw_Raise (size : Z) (buf : bytes) (offset : Z) (e : exn) :
  unpack_raw size buf offset = Raise e -> e = StructError.
Proof.
  unfold unpack_raw.
  destruct (offset <? 0).
  - destruct (0 <? offset + size); simpl; [congruence |].
    destruct (offset + len buf <? 0); simpl; [congruence |].
    destruct (len buf - (offset + len buf) <? size); congruence.
  - simpl. destruct (len buf - offset <? size); congruence.
Qed.

Lemma firstn_1_skipn {A : Type} (l : list A) (n : nat) (a : A) :
  nth_error l n = Some a -> firstn 1 (skipn n l) = [a].
Proof.
  revert l; induction n as [| n IH]; intros [| x l] H; simpl in *; try discriminate.
  - congruence.
  - apply IH; assumption.
Qed.

Lemma nth_error_in_range {A : Type} (l : list A) (i : Z) :
  0 <= i < len l -> exists a, nth_error l (Z.to_nat i) = Some a.
Proof.
  intros Hi. destruct (nth_error l (Z.to_nat i)) as [a |] eqn:E; [eauto |].
  apply nth_error_None in E. unfold len in Hi. lia.
Qed.

(** A one-byte read at a non-negative offset returns the byte stored there. *)
Lemma unpack_B_Ok_inv (buf : bytes) (offset v : Z) :
  0 <= offset -> unpack_B buf offset = Ok v ->
  exists b, nth_error buf (Z.to_nat offset) = Some b /\ v = byte_val b.
Proof.
  intros H0 H. unfold unpack_B in H. inv_bind H.
  apply unpack_raw_Ok_inv in Hx; [| assumption]. destruct Hx as [Hlen ->].
  destruct (nth_error_in_range buf offset) as [b Hb]; [lia |].
  exists b. split; [assumption |].
  change (Z.to_nat 1) with 1%nat in H.
  rewrite (firstn_1_skipn _ _ _ Hb) in H.
  rewrite le_uint_cons, le_uint_nil in H. apply Ok_inj in H. lia.
Qed.

Lemma unpack_B_nonneg (buf : bytes) (offset v : Z) :
  unpack_B buf offset = Ok v -> 0 <= v.
Proof.
  unfold unpack_B. intros H. inv_bind H. injection H as <-.
  apply le_uint_range.
Qed.

Lemma firstn_succ_skipn {A : Type} (l : list A) (n k : nat) (a : A) :
  nth_error l n = Some a ->
  firstn (S k) (skipn n l) = a :: firstn k (skipn (S n) l).
Proof.
  revert l; induction n as [| n IH]; intros [| x l] H; simpl in *; try discriminate.
  - injection H as ->. reflexivity.
  - rewrite IH by assumption. destruct l; reflexivity.
Qed.

(** A two-byte read at a non-negative offset is little-endian. *)
Lemma unpack_UI_Ok_inv (buf : bytes) (offset v : Z) :
  0 <= offset -> unpack_UI buf offset = Ok v ->
  exists b0 b1,
    nth_error buf (Z.to_nat offset) = Some b0 /\
    nth_error buf (S (Z.to_nat offset)) = Some b1 /\
    v = byte_val b0 + 256 * byte_val b1.
Proof.
  intros H0 H. unfold unpack_UI in H. inv_bind H.
  apply unpack_raw_Ok_inv in Hx; [| assumption]. destruct Hx as [Hlen ->].
  destruct (nth_error_in_range buf offset) as [b0 Hb0]; [lia |].
  destruct (nth_error_in_range buf (offset + 1)) as [b1 Hb1]; [lia |].
  replace (Z.to_nat (offset + 1)) with (S (Z.to_nat offset)) in Hb1 by lia.
  exists b0, b1. repeat split; try assumption.
  change (Z.to_nat 2) with 2%nat in H.
  rewrite (firstn_succ_skipn _ _ _ _ Hb0), (firstn_1_skipn _ _ _ Hb1) in H.
  rewrite !le_uint_cons, le_uint_nil in H. apply Ok_inj in H. lia.
Qed.

(** Every reader built on [unpack_from] raises [struct.error] only. *)
Ltac unpack_raises H :=
  apply bind_Raise_inv in H;
  destruct H as [H | (? & _ & H)];
  [ eapply unpack_raw_Raise; eassumption | discriminate ].

Lemma unpack_B_Raise buf offset e : unpack_B buf offset = Raise e -> e = StructError.
Proof. unfold unpack_B; intros H; unpack_raises H. Qed.

Lemma unpack_UI_Raise buf offset e : unpack_UI buf offset = Raise e -> e = StructError.
Proof. unfold unpack_UI; intros H; unpack_raises H. Qed.

Lemma unpack_UL_Raise buf offset e : unpack_UL buf offset = Raise e -> e = StructError.
Proof. unfold unpack_UL; intros H; unpack_raises H. Qed.

Lemma unpack_I_Raise buf offset e : unpack_I buf offset = Raise e -> e = StructError.
Proof. unfold unpack_I; intros H; unpack_raises H. Qed.

Lemma unpack_L_Raise buf offset e : unpack_L buf offset = Raise e -> e = StructError.
Proof. unfold unpack_L; intros H; unpack_raises H. Qed.

Lemma unpack_D_Raise buf offset e : unpack_D buf offset = Raise e -> e = StructError.
Proof. unfold unpack_D; intros H; unpack_raises H. Qed.

Lemma unpack_UI_beyond buf offset :
  0 <= offset -> len buf < offset + 2 -> unpack_UI buf offset = Raise StructError.
Proof.
  intros H0 H1. unfold unpack_UI. rewrite unpack_raw_beyond by assumption. reflexivity.
Qed.

Lemma unpack_UL_beyond buf offset :
  0 <= offset -> len buf < offset + 4 -> unpack_UL buf offset = Raise StructError.
Proof.
  intros H0 H1. unfold unpack_UL. rewrite unpack_raw_beyond by assumption. reflexivity.
Qed.

Lemma int_truediv_Raise a b e : int_truediv a b = Raise e -> e = ZeroDivisionError.
Proof. unfold int_truediv. destruct (b =? 0); congruence. Qed.

Lemma int_truediv_Ok_inv a b q :
  int_truediv a b = Ok q -> b <> 0 /\ q = fdiv (float_of_int a) (float_of_int b).
Proof.
  unfold int_truediv. destruct (b =? 0) eqn:E; [discriminate |].
  apply Z.eqb_neq in E. intros H; injection H as <-. auto.
Qed.

(** ** The header *)

Lemma read_nChannels_Raise buf e : read_nChannels buf = Raise e -> e = StructError.
Proof.
  unfold read_nChannels. intros H.
  apply bind_Raise_inv in H. destruct H as [H | (v & _ & H)].
  - eapply unpack_UI_Raise; eassumption.
  - destruct (144 <=? v).
    + eapply unpack_B_Raise; eassumption.
    + apply bind_Raise_inv in H. destruct H as [H | (? & _ & H)]; [| discriminate].
      eapply unpack_B_Raise; eassumption.
Qed.

(** The rule of lines 61 to 64, on the bytes of the buffer. *)
Lemma read_nChannels_Ok_inv buf n :
  read_nChannels buf = Ok n ->
  exists b0 v0 v1,
    nth_error buf 0 = Some b0 /\ nth_error buf 2 = Some v0 /\
    nth_error buf 3 = Some v1 /\
    n = if 144 <=? byte_val v0 + 256 * byte_val v1
        then byte_val b0 else Z.land (byte_val b0) 31.
Proof.
  unfold read_nChannels. intros H. inv_bind H.
  apply unpack_UI_Ok_inv in Hx; [| lia].
  destruct Hx as (v0 & v1 & Hv0 & Hv1 & ->).
  change (Z.to_nat 2) with 2%nat in *.
  destruct (144 <=? byte_val v0 + 256 * byte_val v1) eqn:E.
  - apply unpack_B_Ok_inv in H; [| lia]. destruct H as (b0 & Hb0 & ->).
    exists b0, v0, v1. rewrite E. auto.
  - inv_bind H. injection H as <-.
    apply unpack_B_Ok_inv in Hx; [| lia]. destruct Hx as (b0 & Hb0 & ->).
    exists b0, v0, v1. rewrite E. auto.
Qed.

Lemma read_nChannels_nonneg buf n : read_nChannels buf = Ok n -> 0 <= n.
Proof.
  intros H. apply read_nChannels_Ok_inv in H.
  destruct H as (b0 & v0 & v1 & _ & _ & _ & ->).
  pose proof (byte_val_range b0).
  destruct (144 <=? _); [lia | apply Z.land_nonneg; lia].
Qed.

(** What a decoded header records, field by field. *)
Lemma read_header_Ok_inv env buf h :
  read_header env buf = Ok h ->
  read_nChannels buf = Ok (nChannels h) /\
  unpack_B buf 4 = Ok (_hChannels h) /\
  unpack_B buf 5 = Ok (_hChannelSize h) /\
  unpack_I buf 6 = Ok (_headSize h) /\
  unpack_UL buf 8 = Ok (_dataSize h) /\
  int_truediv (_dataSize h) (2 * nChannels h) = Ok (nSample h) /\
  unpack_UL buf 12 = Ok (_trailerSize h) /\
  unpack_UI buf 16 = Ok (_annoSize h) /\
  unpack_D buf 28 = Ok (timeStep h) /\
  (exists e14 e15,
      unpack_L buf 36 = Ok e14 /\ unpack_L buf 40 = Ok e15 /\
      fileCreatedRaw h = utcfromtimestamp e14 /\
      fileCreated h = strftime (fromtimestamp env e14) /\
      fileWritten h = strftime (fromtimestamp env e15)) /\
  (exists e27,
      unpack_UI buf 100 = Ok e27 /\
      _packed h = Z.shiftr (Z.land e27 16384) 14 /\
      _HiRes h = Z.land e27 2).
Proof.
  unfold read_header. intros H. inv_bind H. injection H as <-. simpl.
  repeat (split; [assumption |]).
  split.
  - eexists _, _. repeat (split; [eassumption |]). auto.
  - match goal with
    | H1 : unpack_UI buf 100 = Ok ?a, H2 : unpack_UI buf 100 = Ok ?b |- _ =>
        assert (a = b) by congruence; subst b; exists a
    end.
    auto.
Qed.

Lemma header_nChannels_pos env buf h :
  read_header env buf = Ok h -> 1 <= nChannels h.
Proof.
  intros H. apply read_header_Ok_inv in H.
  destruct H as (Hn & _ & _ & _ & _ & Hdiv & _).
  apply read_nChannels_nonneg in Hn.
  apply int_truediv_Ok_inv in Hdiv. lia.
Qed.

Lemma decode_Ok_inv env buf w :
  decode env buf = Ok w ->
  _fcontents w = buf /\
  read_header env buf = Ok (head w) /\
  read_channels buf (head w) = Ok (chans w) /\
  read_annotations buf (head w) = Ok (_annotations w) /\
  read_samples buf (head w) = Ok (npdata w).
Proof.
  unfold decode. intros H. inv_bind H. injection H as <-. simpl. auto.
Qed.

(** C4. For every buffer that decodes, the channel count is the whole byte at
    offset 0 when the little-endian 16-bit field at offset 2 is at least 144,
    and that byte masked with 31 otherwise; so version 143 with byte 37 gives
    5 channels and version 144 with byte 37 gives 37 channels. *)
Theorem channel_count_by_version (env : environment) (buf : bytes) (w : windaq) :
  decode env buf = Ok w ->
  exists b0 v0 v1,
    nth_error buf 0 = Some b0 /\
    nth_error buf 2 = Some v0 /\
    nth_error buf 3 = Some v1 /\
    let version := byte_val v0 + 256 * byte_val v1 in
    (144 <= version -> nChannels (head w) = byte_val b0) /\
    (version < 144 -> nChannels (head w) = Z.land (byte_val b0) 31) /\
    (version = 143 -> byte_val b0 = 37 -> nChannels (head w) = 5) /\
    (version = 144 -> byte_val b0 = 37 -> nChannels (head w) = 37).
Proof.
  intros H. apply decode_Ok_inv in H. destruct H as (_ & Hh & _).
  apply read_header_Ok_inv in Hh. destruct Hh as (Hn & _).
  apply read_nChannels_Ok_inv in Hn.
  destruct Hn as (b0 & v0 & v1 & H0 & H2 & H3 & Hn).
  exists b0, v0, v1. repeat (split; [assumption |]).
  cbv zeta. rewrite Hn.
  destruct (144 <=? byte_val v0 + 256 * byte_val v1) eqn:E;
    [apply Z.leb_le in E | apply Z.leb_gt in E].
  - repeat split; intros; lia.
  - repeat split; intros; try lia; try reflexivity.
    match goal with Hb : byte_val b0 = 37 |- _ => rewrite Hb end.
    reflexivity.
Qed.

Lemma channel_count_by_version_witness :
  exists w, decode utc (minimal_file 37 143) = Ok w /\ nChannels (head w) = 5.
Proof.
  assert (E : exists w, decode utc (minimal_file 37 143) = Ok w)
    by (vm_compute; eexists; reflexivity).
  destruct E as [w E]. exists w. split; [exact E |].
  destruct (channel_count_by_version utc _ w E)
    as (b0 & v0 & v1 & H0 & H2 & H3 & _ & _ & H143 & _).
  vm_compute in H0, H2, H3.
  injection H0 as <-. injection H2 as <-. injection H3 as <-.
  apply H143; reflexivity.
Defined.

(** C6, as the code has it.  A buffer shorter than 102 bytes makes the
    constructor fail while it reads the header, so before any channel entry,
    annotation or sample is read; the exception is [struct.error], or
    [ZeroDivisionError] when the channel count is 0 and the buffer holds the
    first twelve bytes. *)
Theorem short_buffer_fails_in_header (env : environment) (buf : bytes) :
  len buf < 102 ->
  exists e,
    read_header env buf = Raise e /\
    decode env buf = Raise e /\
    (e = StructError \/ e = ZeroDivisionError).
Proof.
  intros Hlen.
  assert (H : exists e, read_header env buf = Raise e /\
                        (e = StructError \/ e = ZeroDivisionError)).
  { unfold read_header.
    repeat
      match goal with
      | |- exists e, bind (unpack_UI buf 100) _ = Raise e /\ _ =>
          rewrite unpack_UI_beyond by lia;
          exists StructError; split; [reflexivity | left; reflexivity]
      | |- exists e, bind ?r _ = Raise e /\ _ =>
          let E := fresh "E" in
          destruct r eqn:E; cbn [bind]; cbv zeta;
          [ | eexists; split; [reflexivity |];
              first [ left;
                      solve [ eauto using read_nChannels_Raise, unpack_B_Raise,
                                unpack_I_Raise, unpack_UL_Raise, unpack_UI_Raise,
                                unpack_D_Raise, unpack_L_Raise ]
                    | right; eapply int_truediv_Raise; eassumption ] ]
      end. }
  destruct H as (e & He & Hkind). exists e.
  split; [assumption |]. split; [| assumption].
  unfold decode. rewrite He. reflexivity.
Qed.

Lemma short_buffer_fails_in_header_witness :
  exists e, decode utc (firstn 101 standard_file) = Raise e.
Proof.
  destruct (short_buffer_fails_in_header utc (firstn 101 standard_file))
    as (e & _ & He & _).
  - vm_compute. reflexivity.
  - exists e. exact He.
Defined.

(** C6 fails as stated: a buffer of 102 bytes, shorter than 104, decodes. *)
Lemma buffer_of_102_bytes_decodes :
  len (minimal_file 1 0) < 104 /\ ~ fails (decode utc (minimal_file 1 0)).
Proof.
  split; [vm_compute; reflexivity |].
  apply succeeds_not_fails. vm_compute. eexists; reflexivity.
Qed.

Lemma unpack_B_in_range buf offset :
  0 <= offset -> offset + 1 <= len buf -> succeeds (unpack_B buf offset).
Proof.
  intros. unfold unpack_B. rewrite unpack_raw_in_range by assumption.
  eexists; reflexivity.
Qed.

Lemma unpack_I_in_range buf offset :
  0 <= offset -> offset + 2 <= len buf -> succeeds (unpack_I buf offset).
Proof.
  intros. unfold unpack_I. rewrite unpack_raw_in_range by assumption.
  eexists; reflexivity.
Qed.

Lemma unpack_UL_in_range buf offset :
  0 <= offset -> offset + 4 <= len buf -> succeeds (unpack_UL buf offset).
Proof.
  intros. unfold unpack_UL. rewrite unpack_raw_in_range by assumption.
  eexists; reflexivity.
Qed.

(** C7. A buffer whose channel count, whole or masked by the version rule,
    comes out as 0 never decodes: the division by [2 * nChannels] raises
    [ZeroDivisionError] as soon as the four header fields read before it are
    in the buffer, and a shorter buffer fails on one of those reads. *)
Theorem zero_channel_count_fails (env : environment) (buf : bytes) :
  read_nChannels buf = Ok 0 ->
  fails (decode env buf) /\
  (12 <= len buf -> decode env buf = Raise ZeroDivisionError).
Proof.
  intros H0.
  assert (Hdec : decode env buf
                 = (hCh <- unpack_B buf 4 ;; hChSize <- unpack_B buf 5 ;;
                    headSz <- unpack_I buf 6 ;; dataSz <- unpack_UL buf 8 ;;
                    Raise ZeroDivisionError)).
  { unfold decode, read_header. rewrite H0. cbn [bind].
    destruct (unpack_B buf 4); [cbn [bind] | reflexivity].
    destruct (unpack_B buf 5); [cbn [bind] | reflexivity].
    destruct (unpack_I buf 6); [cbn [bind] | reflexivity].
    destruct (unpack_UL buf 8); reflexivity. }
  rewrite Hdec. split.
  - destruct (unpack_B buf 4); [cbn [bind] | eexists; reflexivity].
    destruct (unpack_B buf 5); [cbn [bind] | eexists; reflexivity].
    destruct (unpack_I buf 6); [cbn [bind] | eexists; reflexivity].
    destruct (unpack_UL buf 8); eexists; reflexivity.
  - intros Hlen.
    destruct (unpack_B_in_range buf 4) as [a4 ->]; [lia | lia |].
    destruct (unpack_B_in_range buf 5) as [a5 ->]; [lia | lia |].
    destruct (unpack_I_in_range buf 6) as [a6 ->]; [lia | lia |].
    destruct (unpack_UL_in_range buf 8) as [a8 ->]; [lia | lia |].
    reflexivity.
Qed.

Lemma zero_channel_count_fails_witness :
  decode utc (minimal_file 0 0) = Raise ZeroDivisionError.
Proof.
  apply (zero_channel_count_fails utc (minimal_file 0 0)).
  - vm_compute. reflexivity.
  - vm_compute. discriminate.
Defined.

(** ** Loops that fill a list *)

Section Columns.
Context {St X : Type}.
Variable body : Z -> St -> result St.
Variable proj : St -> list X.
Variable rd : Z -> result X.
Hypothesis step : forall i s s',
    body i s = Ok s' -> exists x, rd i = Ok x /\ proj s' = proj s ++ [x].

(** A loop whose every turn appends what [rd] reads at the loop index
    leaves the list extended by the reads at [start], [start + 1], ... *)
Lemma for_range_column (n : nat) : forall (start : Z) (s s' : St),
    for_range body n start s = Ok s' ->
    exists xs,
      proj s' = proj s ++ xs /\ List.length xs = n /\
      forall j x, nth_error xs j = Some x -> rd (start + Z.of_nat j) = Ok x.
Proof.
  induction n as [| n IH]; intros start s s' H; simpl in H.
  - injection H as <-. exists []. rewrite app_nil_r.
    repeat split. intros [| j] x Hj; discriminate.
  - apply bind_Ok_inv in H. destruct H as (s1 & H1 & H).
    destruct (step _ _ _ H1) as (x & Hx & Hs1).
    destruct (IH _ _ _ H) as (xs & Hs' & Hlen & Hnth).
    exists (x :: xs). split; [| split].
    + rewrite Hs', Hs1, <- app_assoc. reflexivity.
    + simpl. congruence.
    + intros [| j] y Hj; simpl in Hj.
      * injection Hj as <-. rewrite Z.add_0_r. assumption.
      * apply Hnth in Hj. rewrite <- Hj. f_equal. lia.
Qed.
End Columns.

Lemma getitem_nth {A : Type} (l : list A) (i : Z) (a : A) :
  0 <= i -> nth_error l (Z.to_nat i) = Some a -> getitem l i = Ok a.
Proof.
  intros Hi Hn. unfold getitem.
  assert (Hlt : (Z.to_nat i < List.length l)%nat)
    by (apply nth_error_Some; congruence).
  destruct (i <? 0) eqn:E; [apply Z.ltb_lt in E; lia |].
  destruct (i <? 0) eqn:E1; [apply Z.ltb_lt in E1; lia |].
  destruct (len l <=? i) eqn:E2; [apply Z.leb_le in E2; unfold len in E2; lia |].
  simpl. rewrite Hn. reflexivity.
Qed.

Lemma getitem_beyond {A : Type} (l : list A) (i : Z) :
  len l <= i -> getitem l i = Raise IndexError.
Proof.
  intros Hi. unfold getitem. pose proof (len_nonneg l).
  destruct (i <? 0) eqn:E; [apply Z.ltb_lt in E; lia |].
  rewrite E.
  destruct (len l <=? i) eqn:E2; [reflexivity | apply Z.leb_gt in E2; lia].
Qed.

Lemma getitem_below {A : Type} (l : list A) (i : Z) :
  i < - len l -> getitem l i = Raise IndexError.
Proof.
  intros Hi. unfold getitem. pose proof (len_nonneg l).
  destruct (i <? 0) eqn:E; [| apply Z.ltb_ge in E; lia].
  destruct (i + len l <? 0) eqn:E1; [reflexivity | apply Z.ltb_ge in E1; lia].
Qed.

(** A negative index in range stands for the index [len l] higher. *)
Lemma getitem_wrap {A : Type} (l : list A) (i : Z) :
  - len l <= i < 0 -> getitem l i = getitem l (i + len l).
Proof.
  intros Hi. unfold getitem. cbv zeta.
  destruct (i <? 0) eqn:E; [| apply Z.ltb_ge in E; lia].
  destruct (i + len l <? 0) eqn:E1; [apply Z.ltb_lt in E1; lia |].
  cbv iota. rewrite E1. reflexivity.
Qed.

(** ** The channel table *)

Lemma read_channel_Ok_inv buf h channel t t' :
  read_channel buf h channel t = Ok t' ->
  exists slope icpt cal calb units divisor phy,
    unpack_F buf (channel_offset h channel) = Ok slope /\
    unpack_F buf (channel_offset h channel + 4) = Ok icpt /\
    unpack_D buf (channel_offset h channel + 8) = Ok cal /\
    unpack_D buf (channel_offset h channel + 16) = Ok calb /\
    unpack_cccccc buf (channel_offset h channel + 24) = Ok units /\
    (if _packed h =? 0 then Ok 1
     else unpack_B buf (channel_offset h channel + 31)) = Ok divisor /\
    unpack_B buf (channel_offset h channel + 32) = Ok phy /\
    t' = mk_channel_info
           (scalingSlope t ++ [slope]) (scalingIntercept t ++ [icpt])
           (calScaling t ++ [cal]) (calIntercept t ++ [calb])
           (engUnits t ++ [units]) (sampleRateDivisor t ++ [divisor])
           (phyChannel t ++ [phy]).
Proof.
  unfold read_channel, channel_offset. intros H. inv_bind H.
  apply Ok_inj in H. subst t'.
  eexists _, _, _, _, _, _, _.
  repeat
    match goal with
    | Hu : ?f buf ?o = Ok _ |- ?f buf ?o' = Ok _ /\ _ =>
        replace o' with o by lia; split; [exact Hu |]
    | Hu : (if _ then _ else unpack_B buf ?o) = Ok _
      |- (if _ then _ else unpack_B buf ?o') = Ok _ /\ _ =>
        replace o' with o by lia; split; [exact Hu |]
    end.
  reflexivity.
Qed.

Lemma column_reads_as {X : Type} (proj : channel_info -> list X)
    (rd : Z -> result X) buf h t :
  proj no_channels = [] ->
  (forall i s s', read_channel buf h i s = Ok s' ->
                  exists x, rd i = Ok x /\ proj s' = proj s ++ [x]) ->
  read_channels buf h = Ok t ->
  len (proj t) = Z.max 0 (nChannels h) /\
  forall k, 0 <= k < nChannels h -> reads_as (proj t) k (rd k).
Proof.
  intros Hnil Hstep H. unfold read_channels in H.
  destruct (for_range_column _ proj rd Hstep _ _ _ _ H) as (xs & Hxs & Hlen & Hnth).
  rewrite Hnil in Hxs. simpl in Hxs. rewrite Hxs. split.
  - unfold len. rewrite Hlen. lia.
  - intros k Hk.
    destruct (nth_error xs (Z.to_nat k)) as [x |] eqn:E.
    + exists x. split; [apply getitem_nth; [lia | assumption] |].
      apply Hnth in E. rewrite Z2Nat.id in E by lia. exact E.
    + apply nth_error_None in E. lia.
Qed.

Ltac column_step :=
  let H := fresh "H" in
  intros ? ? ? H; apply read_channel_Ok_inv in H;
  destruct H as (? & ? & ? & ? & ? & ? & ? & ? & ? & ? & ? & ? & ? & ? & ->);
  eexists; split; [eassumption | reflexivity].

(** The seven columns of a channel table that was read. *)
Lemma read_channels_layout buf h t :
  read_channels buf h = Ok t ->
  forall k, 0 <= k < nChannels h ->
    reads_as (scalingSlope t) k (unpack_F buf (channel_offset h k)) /\
    reads_as (scalingIntercept t) k (unpack_F buf (channel_offset h k + 4)) /\
    reads_as (calScaling t) k (unpack_D buf (channel_offset h k + 8)) /\
    reads_as (calIntercept t) k (unpack_D buf (channel_offset h k + 16)) /\
    reads_as (engUnits t) k (unpack_cccccc buf (channel_offset h k + 24)) /\
    reads_as (sampleRateDivisor t) k
      (if _packed h =? 0 then Ok 1
       else unpack_B buf (channel_offset h k + 31)) /\
    reads_as (phyChannel t) k (unpack_B buf (channel_offset h k + 32)).
Proof.
  intros H k Hk.
  repeat split;
    match goal with
    | |- reads_as (?proj t) k ?r =>
        let rd := eval pattern k in r in
        match rd with
        | ?f k =>
            refine (proj2 (column_reads_as proj f buf h t eq_refl _ H) k Hk);
            column_step
        end
    end.
Qed.

Lemma read_channels_lengths buf h t :
  read_channels buf h = Ok t ->
  len (calScaling t) = Z.max 0 (nChannels h) /\
  len (calIntercept t) = Z.max 0 (nChannels h) /\
  len (engUnits t) = Z.max 0 (nChannels h).
Proof.
  intros H. repeat split.
  - refine (proj1 (column_reads_as calScaling
              (fun k => unpack_D buf (channel_offset h k + 8)) buf h t eq_refl _ H)).
    column_step.
  - refine (proj1 (column_reads_as calIntercept
              (fun k => unpack_D buf (channel_offset h k + 16)) buf h t eq_refl _ H)).
    column_step.
  - refine (proj1 (column_reads_as engUnits
              (fun k => unpack_cccccc buf (channel_offset h k + 24)) buf h t eq_refl _ H)).
    column_step.
Qed.

(** C8, as the code has it.  In every decoded recording the entry of channel
    [k] (counted from 0) at offset [_hChannels + _hChannelSize * k] holds the
    slope at +0 and the intercept at +4 (binary32), the calibration scale at
    +8 and the calibration intercept at +16 (binary64), the six-byte unit tag
    at +24, the divisor byte at +31, read only when the file is packed and 1
    otherwise, and the physical channel number at +32 whether or not the file
    is packed; the byte at +30 is not read. *)
Theorem channel_entry_layout (env : environment) (buf : bytes) (w : windaq) (k : Z) :
  decode env buf = Ok w ->
  0 <= k < nChannels (head w) ->
  let off := _hChannels (head w) + _hChannelSize (head w) * k in
  reads_as (scalingSlope (chans w)) k (unpack_F buf off) /\
  reads_as (scalingIntercept (chans w)) k (unpack_F buf (off + 4)) /\
  reads_as (calScaling (chans w)) k (unpack_D buf (off + 8)) /\
  reads_as (calIntercept (chans w)) k (unpack_D buf (off + 16)) /\
  reads_as (engUnits (chans w)) k (unpack_cccccc buf (off + 24)) /\
  reads_as (sampleRateDivisor (chans w)) k
    (if _packed (head w) =? 0 then Ok 1 else unpack_B buf (off + 31)) /\
  reads_as (phyChannel (chans w)) k (unpack_B buf (off + 32)).
Proof.
  intros H Hk. apply decode_Ok_inv in H. destruct H as (_ & _ & Ht & _).
  exact (read_channels_layout buf (head w) (chans w) Ht k Hk).
Qed.

(** Replace a recording by the value that evaluating [decode] gives it. *)
Ltac by_decoding E :=
  let E' := fresh "E" in
  pose proof E as E'; vm_compute in E'; injection E' as E';
  rewrite <- E'; cbn.

Lemma channel_entry_layout_witness :
  exists w,
    decode utc packed_file = Ok w /\
    reads_as (sampleRateDivisor (chans w)) 0 (unpack_B packed_file (110 + 31)) /\
    reads_as (phyChannel (chans w)) 0 (unpack_B packed_file (110 + 32)).
Proof.
  assert (E : exists w, decode utc packed_file = Ok w)
    by (vm_compute; eexists; reflexivity).
  destruct E as [w E]. exists w. split; [exact E |].
  assert (Hn : 0 <= 0 < nChannels (head w)).
  { by_decoding E. lia. }
  pose proof (channel_entry_layout utc packed_file w 0 E Hn) as L.
  cbv zeta in L.
  destruct L as (_ & _ & _ & _ & _ & Hdiv & Hphy).
  assert (Hh : _hChannels (head w) = 110 /\ _hChannelSize (head w) = 36
               /\ _packed (head w) = 1).
  { by_decoding E. repeat split. }
  destruct Hh as (Hc & Hs & Hp).
  rewrite Hc, Hs, Hp in Hdiv. rewrite Hc, Hs in Hphy.
  split; assumption.
Defined.

(** C8 fails as stated: with the marker bytes 7, 9, 3 at entry offsets 30, 31
    and 32, an unpacked file yields physical channel 3, not the 7 found at
    offset 30, and a packed file yields divisor 9 and physical channel 3, not
    the 7 and 9 found at offsets 30 and 31. *)
Lemma physical_channel_offset_does_not_shift :
  (exists w,
      decode utc standard_file = Ok w /\ _packed (head w) = 0 /\
      unpack_B standard_file
        (channel_offset (head w) 0 + claimed_phyChannel_offset (_packed (head w)))
      = Ok 7 /\
      getitem (phyChannel (chans w)) 0 = Ok 3) /\
  (exists w,
      decode utc packed_file = Ok w /\ _packed (head w) = 1 /\
      unpack_B packed_file (channel_offset (head w) 0 + claimed_divisor_offset)
      = Ok 7 /\
      unpack_B packed_file
        (channel_offset (head w) 0 + claimed_phyChannel_offset (_packed (head w)))
      = Ok 9 /\
      getitem (sampleRateDivisor (chans w)) 0 = Ok 9 /\
      getitem (phyChannel (chans w)) 0 = Ok 3).
Proof.
  split; eexists; (split; [vm_compute; reflexivity |]); vm_compute; repeat split.
Qed.

(** ** The accessors *)

Lemma split_nul_nonempty (s : string) : split_nul s <> [].
Proof.
  induction s as [| c rest IH]; simpl; [discriminate |].
  destruct (is_nul c); [discriminate |].
  destruct (split_nul rest); discriminate.
Qed.

Lemma slice_from_positive_step {A : Type} (a : list A) (start step : Z) :
  0 < step -> succeeds (slice_from a start step).
Proof.
  intros Hs. unfold slice_from.
  destruct (step =? 0) eqn:E; [apply Z.eqb_eq in E; lia |].
  destruct (0 <? step) eqn:E1; [| apply Z.ltb_ge in E1; lia].
  eexists; reflexivity.
Qed.

Lemma getitem_in_range {A : Type} (l : list A) (i : Z) :
  0 <= i < len l -> succeeds (getitem l i).
Proof.
  intros Hi. destruct (nth_error_in_range l i Hi) as [a Ha].
  exists a. apply getitem_nth; [lia | assumption].
Qed.

(** What a decoded recording guarantees about its tables. *)
Lemma decoded_tables env buf w :
  decode env buf = Ok w ->
  1 <= nChannels (head w) /\
  len (calScaling (chans w)) = nChannels (head w) /\
  len (calIntercept (chans w)) = nChannels (head w) /\
  len (engUnits (chans w)) = nChannels (head w) /\
  1 <= len (_annotations w).
Proof.
  intros H. apply decode_Ok_inv in H. destruct H as (_ & Hh & Ht & Ha & _).
  pose proof (header_nChannels_pos _ _ _ Hh) as Hn.
  destruct (read_channels_lengths _ _ _ Ht) as (L1 & L2 & L3).
  rewrite Z.max_r in L1, L2, L3 by lia.
  repeat (split; [assumption |]).
  unfold read_annotations in Ha. inv_bind Ha. injection Ha as Ha.
  pose proof (split_nul_nonempty x) as Hne. rewrite Ha in Hne.
  unfold len. destruct (_annotations w); [congruence | simpl; lia].
Qed.

(** C3, as the code has it.  On a decoded recording [data] and [unit] raise
    [IndexError] for every channel number above the channel count or below
    one minus the channel count, and [chAnnotation] raises it for every
    channel number above the number of annotation parts; channel number 0 is
    not rejected but, a list index of -1, selects the last entry: [data]
    returns, [unit] answers as for the last channel and [chAnnotation] as for
    the last annotation part. *)
Theorem channel_number_out_of_range (env : environment) (buf : bytes)
    (w : windaq) (c : Z) :
  decode env buf = Ok w ->
  (nChannels (head w) < c \/ c < 1 - nChannels (head w) ->
   data w c = Raise IndexError /\ unit w c = Raise IndexError) /\
  (len (_annotations w) < c -> chAnnotation w c = Raise IndexError) /\
  succeeds (data w 0) /\
  unit w 0 = unit w (nChannels (head w)) /\
  chAnnotation w 0 = chAnnotation w (len (_annotations w)).
Proof.
  intros H.
  destruct (decoded_tables _ _ _ H) as (Hn & L1 & L2 & L3 & La).
  repeat split.
  - unfold data.
    destruct (slice_from_positive_step (npdata w) (c - 1) (nChannels (head w)))
      as [d ->]; [lia |].
    cbn [bind].
    assert (E : getitem (calScaling (chans w)) (c - 1) = Raise IndexError).
    { destruct H0; [apply getitem_beyond | apply getitem_below]; lia. }
    rewrite E. reflexivity.
  - unfold unit.
    assert (E : getitem (engUnits (chans w)) (c - 1) = Raise IndexError).
    { destruct H0; [apply getitem_beyond | apply getitem_below]; lia. }
    rewrite E. reflexivity.
  - intros Hc. unfold chAnnotation. apply getitem_beyond. lia.
  - unfold data.
    destruct (slice_from_positive_step (npdata w) (0 - 1) (nChannels (head w)))
      as [d ->]; [lia |].
    cbn [bind].
    rewrite (getitem_wrap (calScaling (chans w))) by lia.
    rewrite (getitem_wrap (calIntercept (chans w))) by lia.
    destruct (getitem_in_range (calScaling (chans w))
                (0 - 1 + len (calScaling (chans w)))) as [cal ->]; [lia |].
    destruct (getitem_in_range (calIntercept (chans w))
                (0 - 1 + len (calIntercept (chans w)))) as [calb ->]; [lia |].
    eexists; reflexivity.
  - unfold unit. rewrite (getitem_wrap (engUnits (chans w))) by lia.
    rewrite L3. f_equal. f_equal. lia.
  - unfold chAnnotation. rewrite (getitem_wrap (_annotations w)) by lia.
    f_equal. lia.
Qed.

Lemma channel_number_out_of_range_witness :
  exists w,
    decode utc standard_file = Ok w /\
    data w 2 = Raise IndexError /\ unit w 2 = Raise IndexError /\
    chAnnotation w 3 = Raise IndexError.
Proof.
  assert (E : exists w, decode utc standard_file = Ok w)
    by (vm_compute; eexists; reflexivity).
  destruct E as [w E]. exists w. split; [exact E |].
  destruct (channel_number_out_of_range utc standard_file w 2 E) as (H2 & _).
  destruct (channel_number_out_of_range utc standard_file w 3 E) as (_ & H3 & _).
  assert (Hw : nChannels (head w) = 1 /\ len (_annotations w) = 2).
  { by_decoding E. split; reflexivity. }
  destruct Hw as (Hn & Ha).
  split; [apply H2; lia |]. split; [apply H2; lia | apply H3; lia].
Defined.

(** C3 fails as stated: on the one-channel file, channel number 0 is served
    by all three accessors, and channel number 2, one above the channel
    count, is served by [chAnnotation]. *)
Lemma channel_number_zero_is_served :
  exists w,
    decode utc standard_file = Ok w /\ nChannels (head w) = 1 /\
    ~ fails (data w 0) /\ ~ fails (unit w 0) /\
    ~ fails (chAnnotation w 0) /\ ~ fails (chAnnotation w (1 + 1)).
Proof.
  eexists. split; [vm_compute; reflexivity |].
  split; [reflexivity |].
  repeat split; apply succeeds_not_fails; vm_compute; eexists; reflexivity.
Qed.

(** ** Strided slices *)

Lemma nth_error_take_stride {A : Type} (l : list A) (step : Z) :
  0 <= step ->
  forall (count : nat) (i : Z) (k : nat),
    0 <= i ->
    nth_error (take_stride l i step count) k
    = if (k <? count)%nat
      then nth_error l (Z.to_nat (i + Z.of_nat k * step))
      else None.
Proof.
  intros Hs. induction count as [| count IH]; intros i k Hi.
  - simpl. destruct k; reflexivity.
  - cbn [take_stride].
    destruct (nth_error l (Z.to_nat i)) as [a |] eqn:E.
    + destruct k as [| k].
      * simpl. rewrite Z.add_0_r. symmetry; assumption.
      * cbn [nth_error]. rewrite IH by lia.
        change (S k <? S count)%nat with (k <? count)%nat.
        destruct (k <? count)%nat; [| reflexivity].
        f_equal. lia.
    + apply nth_error_None in E.
      assert (Hbeyond : nth_error l (Z.to_nat (i + Z.of_nat k * step)) = None).
      { apply nth_error_None.
        assert (0 <= Z.of_nat k * step) by (apply Z.mul_nonneg_nonneg; lia).
        lia. }
      rewrite Hbeyond. destruct (k <? S count)%nat; destruct k; reflexivity.
Qed.

(** The slice [a[start::step]], for a start inside or past the array, lists
    the elements at [start], [start + step], ... *)
Lemma slice_from_nth {A : Type} (a : list A) (start step : Z) :
  0 <= start -> 0 < step ->
  exists d,
    slice_from a start step = Ok d /\
    forall k : nat,
      nth_error d k = nth_error a (Z.to_nat (start + Z.of_nat k * step)).
Proof.
  intros H0 Hs. unfold slice_from.
  destruct (step =? 0) eqn:E; [apply Z.eqb_eq in E; lia |].
  destruct (0 <? step) eqn:E1; [| apply Z.ltb_ge in E1; lia].
  destruct (start <? 0) eqn:E2; [apply Z.ltb_lt in E2; lia |].
  eexists. split; [reflexivity |]. intros k.
  pose proof (len_nonneg a) as Hn.
  rewrite nth_error_take_stride by lia.
  set (s0 := Z.min start (len a)).
  set (q := (len a - s0 + step - 1) / step).
  assert (Hq : len a - s0 <= q * step).
  { pose proof (Z.mul_succ_div_gt (len a - s0 + step - 1) step Hs) as Hd.
    fold q in Hd. lia. }
  destruct (k <? Z.to_nat q)%nat eqn:Ek.
  - apply Nat.ltb_lt in Ek.
    assert (Hq0 : 0 < q) by lia.
    assert (Hs0 : s0 < len a).
    { destruct (Z_lt_ge_dec s0 (len a)) as [Hlt | Hge]; [assumption |].
      assert (Hz : q = 0).
      { unfold q. apply Z.div_small. lia. }
      lia. }
    f_equal. f_equal. lia.
  - apply Nat.ltb_ge in Ek. symmetry. apply nth_error_None.
    unfold len in *. nia.
Qed.

(** ** The sample view *)

Lemma read_int16s_range (n : nat) : forall bs r,
    In r (read_int16s bs n) -> -32768 <= r <= 32767.
Proof.
  induction n as [| n IH]; intros bs r Hr; [exact (False_ind _ Hr) |].
  destruct bs as [| lo [| hi rest]]; cbn [read_int16s] in Hr;
    try (exact (False_ind _ Hr)).
  apply in_inv in Hr.
  destruct Hr as [<- | Hr]; [| eapply IH; eassumption].
  apply to_signed_16_range.
  pose proof (le_uint_range [lo; hi]) as Hb.
  change (256 ^ len [lo; hi]) with 65536 in Hb. exact Hb.
Qed.

Lemma read_int16s_length (n : nat) : forall bs,
    (2 * n <= List.length bs)%nat -> List.length (read_int16s bs n) = n.
Proof.
  induction n as [| n IH]; intros bs Hlen; [reflexivity |].
  destruct bs as [| lo [| hi rest]]; cbn [List.length] in Hlen; try lia.
  cbn [read_int16s List.length]. rewrite IH by lia. reflexivity.
Qed.

Lemma frombuffer_int16_Ok_inv buf count offset d :
  0 <= count ->
  frombuffer_int16 buf count offset = Ok d ->
  0 <= offset /\ offset + 2 * count <= len buf /\
  len d = count /\ forall r, In r d -> -32768 <= r <= 32767.
Proof.
  intros Hc H. unfold frombuffer_int16 in H.
  destruct (offset <? 0) eqn:E1; [discriminate |]. apply Z.ltb_ge in E1.
  destruct (len buf <? offset) eqn:E2; [discriminate |]. apply Z.ltb_ge in E2.
  cbn [orb] in H.
  destruct (count <? 0) eqn:E3; [apply Z.ltb_lt in E3; lia |].
  destruct (len buf - offset <? count * 2) eqn:E4; [discriminate |].
  apply Z.ltb_ge in E4. cbn [bind] in H. apply Ok_inj in H. subst d.
  repeat split; try lia.
  - unfold len. rewrite read_int16s_length; [lia |].
    rewrite length_skipn. unfold len in *. lia.
  - eapply read_int16s_range; eassumption.
  - eapply read_int16s_range; eassumption.
Qed.

(** ** Floats that carry no minus sign *)

Lemma binary_round_aux_sign_clear mx ex lx :
  sign_clear (binary_round_aux 53 1024 false mx ex lx).
Proof.
  unfold binary_round_aux.
  destruct (shr_fexp 53 1024 mx ex lx) as [mrs' e'].
  destruct (shr_fexp 53 1024 _ e' loc_Exact) as [mrs'' e''].
  destruct (shr_m mrs''); simpl; auto.
  destruct (e'' <=? 971); reflexivity.
Qed.

Lemma float_of_int_sign_clear z : 0 <= z -> sign_clear (float_of_int z).
Proof.
  intros Hz. unfold float_of_int, binary_normalize.
  destruct z as [| m | m]; [reflexivity | | lia].
  unfold binary_round.
  destruct (shl_align m 0 _) as [mz ez].
  apply binary_round_aux_sign_clear.
Qed.

Lemma fdiv_sign_clear x y : sign_clear x -> sign_clear y -> sign_clear (fdiv x y).
Proof.
  unfold fdiv, SFdiv.
  destruct x as [sx | sx | | sx mx ex], y as [sy | sy | | sy my ey];
    simpl; intros Hx Hy; subst; auto.
  destruct (SFdiv_core_binary 53 1024 (Z.pos mx) ex (Z.pos my) ey) as [[mz ez] lz].
  apply binary_round_aux_sign_clear.
Qed.

Lemma fmul_sign_clear x y : sign_clear x -> sign_clear y -> sign_clear (fmul x y).
Proof.
  unfold fmul, SFmul.
  destruct x as [sx | sx | | sx mx ex], y as [sy | sy | | sy my ey];
    simpl; intros Hx Hy; subst; auto.
  apply binary_round_aux_sign_clear.
Qed.

Lemma int_of_float_sign_clear x z :
  sign_clear x -> int_of_float x = Ok z -> 0 <= z.
Proof.
  destruct x as [s | s | | s m e]; simpl; intros Hx H; try discriminate.
  - apply Ok_inj in H. lia.
  - subst s. apply Ok_inj in H. subst z.
    destruct (0 <=? e) eqn:E.
    + apply Z.leb_le in E. apply Z.shiftl_nonneg. lia.
    + apply Z.shiftr_nonneg. lia.
Qed.

(** The header's sample count per channel, and the number of 16-bit words bound
    as the sample view. *)
Lemma read_samples_Ok_inv env buf h d :
  read_header env buf = Ok h ->
  read_samples buf h = Ok d ->
  exists count,
    int_of_float (fmul (nSample h) (float_of_int (nChannels h))) = Ok count /\
    0 <= count /\
    0 <= _headSize h /\ _headSize h + 2 * count <= len buf /\
    len d = count /\
    forall r, In r d -> -32768 <= r <= 32767.
Proof.
  intros Hh H. unfold read_samples in H. inv_bind H. rename x into count.
  pose proof (header_nChannels_pos _ _ _ Hh) as Hn.
  apply read_header_Ok_inv in Hh.
  destruct Hh as (_ & _ & _ & _ & Hd & Hdiv & _).
  apply int_truediv_Ok_inv in Hdiv. destruct Hdiv as (_ & Hq).
  assert (Hds : 0 <= _dataSize h).
  { unfold unpack_UL in Hd. inv_bind Hd. apply Ok_inj in Hd.
    rewrite <- Hd. apply le_uint_range. }
  assert (Hc : 0 <= count).
  { eapply int_of_float_sign_clear; [| eassumption].
    apply fmul_sign_clear; [| apply float_of_int_sign_clear; lia].
    rewrite Hq. apply fdiv_sign_clear; apply float_of_int_sign_clear; lia. }
  exists count. split; [assumption |]. split; [assumption |].
  apply frombuffer_int16_Ok_inv; assumption.
Qed.

(** ** The scaling of one sample *)

Lemma float_eqb_eq (x y : float) : float_eqb x y = true -> x = y.
Proof.
  destruct x as [a | a | | a m e], y as [b | b | | b m' e']; simpl;
    try discriminate; intros H.
  - apply Bool.eqb_prop in H. congruence.
  - apply Bool.eqb_prop in H. congruence.
  - reflexivity.
  - apply andb_prop in H. destruct H as [H He].
    apply andb_prop in H. destruct H as [Ha Hm].
    apply Bool.eqb_prop in Ha. apply Pos.eqb_eq in Hm. apply Z.eqb_eq in He.
    congruence.
Qed.

Lemma all_from_sound (p : Z -> bool) (n : nat) : forall lo,
    all_from p lo n = true ->
    forall r, lo <= r < lo + Z.of_nat n -> p r = true.
Proof.
  induction n as [| n IH]; intros lo H r Hr; [lia |].
  cbn [all_from] in H. apply andb_prop in H. destruct H as [H0 H].
  destruct (Z.eq_dec r lo) as [-> | Hne]; [assumption |].
  apply (IH (lo + 1)); [assumption | lia].
Qed.

(** On every 16-bit sample the product with [0.25] is exact, and its floor is
    the integer quotient by 4 rounded down: the two scalings of [data] are
    [r / 4] as a real number and [floor (r / 4)].  Checked on all 65536
    samples. *)
Lemma quarter_exact (r : Z) :
  -32768 <= r <= 32767 ->
  fmul (float_of_int r) quarter = float_scaled r (-2) /\
  np_floor (fmul (float_of_int r) quarter) = float_of_int (r / 4).
Proof.
  intros Hr.
  assert (H : all_from
                (fun r => float_eqb (fmul (float_of_int r) quarter)
                            (float_scaled r (-2))
                          && float_eqb (np_floor (fmul (float_of_int r) quarter))
                               (float_of_int (r / 4)))
                (-32768) (Z.to_nat 65536) = true)
    by (vm_compute; reflexivity).
  pose proof (all_from_sound _ _ _ H r) as Hp. cbv beta in Hp.
  assert (Hin : -32768 <= r < -32768 + Z.of_nat (Z.to_nat 65536)) by lia.
  apply Hp in Hin. apply andb_prop in Hin. destruct Hin as [H1 H2].
  split; apply float_eqb_eq; assumption.
Qed.

(** ** [data] *)

(** C1. On a decoded recording and a channel number [c] from 1 to the channel
    count, [data] returns, for the raw samples at positions [c - 1],
    [c - 1 + nChannels], ... of the interleaved view, the values
    [cal * (r * 0.25) + icpt] when the HiRes bit is set and
    [cal * floor(r * 0.25) + icpt] otherwise, [cal] and [icpt] being the
    channel's calibration pair; every raw sample is a signed 16-bit number, on
    which [r * 0.25] is exactly [r / 4] and its floor the integer
    [floor (r / 4)].  With calibration 1 and 0 the raws -4 .. 4 give
    -1, -1, -1, -1, 0, 0, 0, 0, 1 in standard resolution and
    -1, -0.75, ..., 0.75, 1 in high resolution. *)
Theorem channel_values_formula (env : environment) (buf : bytes)
    (w : windaq) (c : Z) :
  decode env buf = Ok w ->
  1 <= c <= nChannels (head w) ->
  exists cal_scale cal_intercept vals,
    getitem (calScaling (chans w)) (c - 1) = Ok cal_scale /\
    getitem (calIntercept (chans w)) (c - 1) = Ok cal_intercept /\
    data w c = Ok vals /\
    (forall k : nat,
        nth_error vals k
        = option_map
            (claimed_value (negb (_HiRes (head w) =? 0)) cal_scale cal_intercept)
            (nth_error (npdata w)
               (Z.to_nat (c - 1 + Z.of_nat k * nChannels (head w))))) /\
    (forall r, In r (npdata w) ->
        -32768 <= r <= 32767 /\
        claimed_value true cal_scale cal_intercept r
        = fadd (fmul cal_scale (float_scaled r (-2))) cal_intercept /\
        claimed_value false cal_scale cal_intercept r
        = fadd (fmul cal_scale (float_of_int (r / 4))) cal_intercept) /\
    map (claimed_value false one zero) [-4; -3; -2; -1; 0; 1; 2; 3; 4]
    = map float_of_int [-1; -1; -1; -1; 0; 0; 0; 0; 1] /\
    map (claimed_value true one zero) [-4; -3; -2; -1; 0; 1; 2; 3; 4]
    = map (fun q => float_scaled q (-2)) [-4; -3; -2; -1; 0; 1; 2; 3; 4].
Proof.
  intros H Hc.
  destruct (decoded_tables _ _ _ H) as (Hn & L1 & L2 & _).
  destruct (getitem_in_range (calScaling (chans w)) (c - 1)) as [cal Hcal]; [lia |].
  destruct (getitem_in_range (calIntercept (chans w)) (c - 1)) as [icpt Hicpt]; [lia |].
  destruct (slice_from_nth (npdata w) (c - 1) (nChannels (head w)))
    as (d & Hd & Hnth); [lia | lia |].
  exists cal, icpt. eexists.
  split; [exact Hcal |]. split; [exact Hicpt |].
  split; [unfold data; rewrite Hd; cbn [bind]; rewrite Hcal; cbn [bind];
          rewrite Hicpt; reflexivity |].
  split; [| split; [| split; vm_compute; reflexivity]].
  - intros k. rewrite !nth_error_map, Hnth.
    destruct (nth_error (npdata w) _) as [r |]; [| reflexivity].
    cbn [option_map]. unfold claimed_value, scale_sample.
    destruct (_HiRes (head w) =? 0); reflexivity.
  - intros r Hr.
    apply decode_Ok_inv in H. destruct H as (_ & Hh & _ & _ & Hs).
    destruct (read_samples_Ok_inv _ _ _ _ Hh Hs) as (count & _ & _ & _ & _ & _ & Hrange).
    specialize (Hrange r Hr).
    destruct (quarter_exact r Hrange) as [Hq Hf].
    split; [assumption |].
    unfold claimed_value. rewrite Hf, Hq. split; reflexivity.
Qed.

Lemma channel_values_formula_witness :
  exists w,
    decode utc standard_file = Ok w /\
    data w 1 = Ok (map float_of_int [-1; -1; -1; -1; 0; 0; 0; 0; 1]).
Proof.
  assert (E : exists w, decode utc standard_file = Ok w)
    by (vm_compute; eexists; reflexivity).
  destruct E as [w E]. exists w. split; [exact E |].
  assert (Hn : 1 <= 1 <= nChannels (head w)) by (by_decoding E; lia).
  destruct (channel_values_formula utc standard_file w 1 E Hn)
    as (cal & icpt & vals & _ & _ & Hdata & _).
  rewrite Hdata. revert Hdata. by_decoding E.
  intros Hdata. vm_compute in Hdata. apply Ok_inj in Hdata. subst vals.
  vm_compute. reflexivity.
Defined.

(** ** The sample count *)

(** C2, as the code has it.  The constructor makes no test of divisibility:
    whenever a buffer decodes, whether or not its data size is a multiple of
    twice the channel count, [nSample] is the float quotient of the data size
    by twice the channel count, and the sample view holds
    [int(nSample * nChannels)] 16-bit words, the fraction dropped by [int],
    which fit in the buffer after the header. *)
Theorem sample_count_is_truncated (env : environment) (buf : bytes) (w : windaq) :
  decode env buf = Ok w ->
  nSample (head w)
  = fdiv (float_of_int (_dataSize (head w)))
         (float_of_int (2 * nChannels (head w))) /\
  exists count,
    int_of_float (fmul (nSample (head w)) (float_of_int (nChannels (head w))))
    = Ok count /\
    0 <= count /\
    len (npdata w) = count /\
    _headSize (head w) + 2 * count <= len buf.
Proof.
  intros H. apply decode_Ok_inv in H. destruct H as (_ & Hh & _ & _ & Hs).
  split.
  - apply read_header_Ok_inv in Hh.
    destruct Hh as (_ & _ & _ & _ & _ & Hdiv & _).
    apply int_truediv_Ok_inv in Hdiv. tauto.
  - destruct (read_samples_Ok_inv _ _ _ _ Hh Hs)
      as (count & Hc & H0 & _ & Hfit & Hlen & _).
    exists count. auto.
Qed.

Lemma sample_count_is_truncated_witness :
  exists w, decode utc odd_file = Ok w /\ len (npdata w) = 8.
Proof.
  assert (E : exists w, decode utc odd_file = Ok w)
    by (vm_compute; eexists; reflexivity).
  destruct E as [w E]. exists w. split; [exact E |].
  destruct (sample_count_is_truncated utc odd_file w E)
    as (_ & count & Hc & _ & Hlen & _).
  rewrite Hlen. revert Hc. by_decoding E. intros Hc.
  vm_compute in Hc. apply Ok_inj in Hc. symmetry. exact Hc.
Defined.

(** C2 fails as stated: a data size of 17 bytes on one channel is not a
    multiple of 2, and the buffer decodes, to eight samples and a sample count
    of 8.5. *)
Lemma odd_data_size_decodes :
  exists w,
    decode utc odd_file = Ok w /\
    _dataSize (head w) mod (2 * nChannels (head w)) <> 0 /\
    ~ fails (decode utc odd_file) /\
    nSample (head w) = float_scaled 17 (-1) /\
    npdata w = [-4; -3; -2; -1; 0; 1; 2; 3].
Proof.
  eexists. split; [vm_compute; reflexivity |].
  split; [vm_compute; discriminate |].
  split; [apply succeeds_not_fails; vm_compute; eexists; reflexivity |].
  split; vm_compute; reflexivity.
Qed.

(** ** The annotations *)

Lemma unpack_c_at buf offset b :
  0 <= offset -> nth_error buf (Z.to_nat offset) = Some b ->
  unpack_c buf offset = Ok b.
Proof.
  intros H0 Hb. unfold unpack_c.
  assert (Hlt : (Z.to_nat offset < List.length buf)%nat)
    by (apply nth_error_Some; congruence).
  rewrite unpack_raw_in_range by (unfold len; lia).
  change (Z.to_nat 1) with 1%nat.
  rewrite (firstn_1_skipn _ _ _ Hb). reflexivity.
Qed.

Lemma nth_error_below {A : Type} (l : list A) (i j : Z) (a : A) :
  0 <= i <= j -> nth_error l (Z.to_nat j) = Some a ->
  exists a', nth_error l (Z.to_nat i) = Some a'.
Proof.
  intros Hij Hj. apply nth_error_in_range.
  assert (Hlt : (Z.to_nat j < List.length l)%nat)
    by (apply nth_error_Some; congruence).
  unfold len. lia.
Qed.

(** A byte of 128 or more that the loop reaches makes it raise
    [UnicodeDecodeError], whatever was accumulated. *)
Lemma annotation_loop_high buf aOffset i b :
  nth_error buf (Z.to_nat (aOffset + i)) = Some b ->
  128 <= byte_val b ->
  forall (n : nat) (start : Z) (s : string),
    0 <= aOffset + start -> start <= i < start + Z.of_nat n ->
    for_range (read_annotation_char buf aOffset) n start s
    = Raise UnicodeDecodeError.
Proof.
  intros Hb Hhigh. induction n as [| n IH]; intros start s H0 Hi; [lia |].
  cbn [for_range]. unfold read_annotation_char at 1.
  destruct (nth_error_below buf (aOffset + start) (aOffset + i) b) as [b0 Hb0];
    [lia | assumption |].
  rewrite (unpack_c_at _ _ _ H0 Hb0). cbn [bind]. unfold decode_utf8.
  destruct (byte_val b0 <? 128) eqn:E; [| reflexivity].
  apply Z.ltb_lt in E. cbn [bind].
  apply IH; [lia |].
  destruct (Z.eq_dec start i) as [-> | Hne]; [| lia].
  rewrite Hb in Hb0. injection Hb0 as <-. lia.
Qed.

(** A run of 7-bit bytes inside the buffer is read to the end. *)
Lemma annotation_loop_ascii buf aOffset :
  forall (n : nat) (start : Z) (s : string),
    0 <= aOffset + start -> aOffset + start + Z.of_nat n <= len buf ->
    (forall i b, start <= i < start + Z.of_nat n ->
                 nth_error buf (Z.to_nat (aOffset + i)) = Some b ->
                 byte_val b < 128) ->
    succeeds (for_range (read_annotation_char buf aOffset) n start s).
Proof.
  induction n as [| n IH]; intros start s H0 Hfit Hascii.
  - eexists; reflexivity.
  - cbn [for_range]. unfold read_annotation_char at 1.
    destruct (nth_error_in_range buf (aOffset + start)) as [b0 Hb0]; [lia |].
    rewrite (unpack_c_at _ _ _ H0 Hb0). cbn [bind]. unfold decode_utf8.
    assert (Hlow : byte_val b0 < 128) by (apply (Hascii start); [lia | assumption]).
    apply Z.ltb_lt in Hlow. rewrite Hlow. cbn [bind].
    apply IH; [lia | lia |].
    intros i b Hi. apply Hascii. lia.
Qed.

Lemma read_annotations_high buf h i b :
  0 <= _headSize h + _dataSize h + _trailerSize h ->
  0 <= i < _annoSize h ->
  nth_error buf (Z.to_nat (_headSize h + _dataSize h + _trailerSize h + i)) = Some b ->
  128 <= byte_val b ->
  read_annotations buf h = Raise UnicodeDecodeError.
Proof.
  intros H0 Hi Hb Hhigh. unfold read_annotations.
  rewrite (annotation_loop_high buf _ i b Hb Hhigh); [reflexivity | lia | lia].
Qed.

(** C10. When the annotation block lies inside the buffer, the annotations
    are decoded if and only if every byte of the block is below 128; and a
    byte of 128 or more in the block, part of a well-formed multi-byte
    character or not, makes the decoding of the whole buffer fail. *)
Theorem annotation_bytes_must_be_ascii (buf : bytes) (h : header) :
  let aOffset := _headSize h + _dataSize h + _trailerSize h in
  0 <= aOffset ->
  aOffset + _annoSize h <= len buf ->
  (succeeds (read_annotations buf h) <->
   forall i b, 0 <= i < _annoSize h ->
               nth_error buf (Z.to_nat (aOffset + i)) = Some b ->
               byte_val b < 128) /\
  (forall env i b,
      read_header env buf = Ok h ->
      0 <= i < _annoSize h ->
      nth_error buf (Z.to_nat (aOffset + i)) = Some b ->
      128 <= byte_val b ->
      fails (decode env buf)).
Proof.
  intros aOffset H0 Hfit. split; [split |].
  - intros Hok i b Hi Hb.
    destruct (Z_lt_ge_dec (byte_val b) 128) as [Hlow | Hhigh]; [assumption |].
    exfalso. apply (succeeds_not_fails _ Hok).
    exists UnicodeDecodeError.
    apply (read_annotations_high buf h i b); [assumption | assumption | assumption | lia].
  - intros Hascii. unfold read_annotations. fold aOffset.
    destruct (Z_le_gt_dec (_annoSize h) 0) as [Hnone | Hsome].
    + replace (Z.to_nat (_annoSize h)) with 0%nat by lia.
      eexists; reflexivity.
    + destruct (annotation_loop_ascii buf aOffset
                  (Z.to_nat (_annoSize h)) 0 EmptyString) as [aTemp ->].
      * lia.
      * lia.
      * intros i b Hi. apply Hascii. lia.
      * eexists; reflexivity.
  - intros env i b Hh Hi Hb Hhigh. unfold decode. rewrite Hh. cbn [bind].
    destruct (read_channels buf h) as [t | e]; [| exists e; reflexivity].
    cbn [bind].
    rewrite (read_annotations_high buf h i b); [| assumption | assumption | assumption | lia].
    exists UnicodeDecodeError. reflexivity.
Qed.

Lemma annotation_bytes_must_be_ascii_witness :
  exists h,
    read_header utc accented_file = Ok h /\
    ~ succeeds (read_annotations accented_file h) /\
    fails (decode utc accented_file).
Proof.
  assert (E : exists h, read_header utc accented_file = Ok h)
    by (vm_compute; eexists; reflexivity).
  destruct E as [h E]. exists h. split; [exact E |].
  assert (Hh : _headSize h = 146 /\ _dataSize h = 18 /\ _trailerSize h = 0
               /\ _annoSize h = 4).
  { pose proof E as E'. vm_compute in E'. injection E' as E'. rewrite <- E'.
    cbn. repeat split. }
  destruct Hh as (H1 & H2 & H3 & H4).
  pose proof (annotation_bytes_must_be_ascii accented_file h) as T.
  cbv zeta in T. rewrite H1, H2, H3, H4 in T.
  destruct T as [Tiff Tfail]; [lia | vm_compute; discriminate |].
  split.
  - intros Hok. apply (proj1 Tiff) with (i := 0) (b := xc3) in Hok.
    + revert Hok. vm_compute. discriminate.
    + lia.
    + vm_compute. reflexivity.
  - apply (Tfail utc 0 xc3 E); [lia | vm_compute; reflexivity | vm_compute; discriminate].
Defined.

(** C5, as the code has it.  When the header and the channel table decode and
    the annotation block, starting inside the buffer, holds a byte of 128 or
    more, the constructor raises [UnicodeDecodeError]: no recording is
    returned and no empty annotation stands in. *)
Theorem undecodable_annotation_aborts (env : environment) (buf : bytes)
    (h : header) (t : channel_info) (i : Z) (b : byte) :
  read_header env buf = Ok h ->
  read_channels buf h = Ok t ->
  0 <= _headSize h + _dataSize h + _trailerSize h ->
  0 <= i < _annoSize h ->
  nth_error buf (Z.to_nat (_headSize h + _dataSize h + _trailerSize h + i)) = Some b ->
  128 <= byte_val b ->
  decode env buf = Raise UnicodeDecodeError.
Proof.
  intros Hh Ht H0 Hi Hb Hhigh. unfold decode.
  rewrite Hh. cbn [bind]. rewrite Ht. cbn [bind].
  rewrite (read_annotations_high buf h i b) by assumption.
  reflexivity.
Qed.

Lemma undecodable_annotation_aborts_witness :
  decode utc accented_file = Raise UnicodeDecodeError.
Proof.
  assert (E : exists h, read_header utc accented_file = Ok h)
    by (vm_compute; eexists; reflexivity).
  destruct E as [h E].
  assert (Et : exists t, read_channels accented_file h = Ok t).
  { pose proof E as E'. vm_compute in E'. injection E' as E'. rewrite <- E'.
    vm_compute. eexists; reflexivity. }
  destruct Et as [t Et].
  assert (Hh : _headSize h = 146 /\ _dataSize h = 18 /\ _trailerSize h = 0
               /\ _annoSize h = 4).
  { pose proof E as E'. vm_compute in E'. injection E' as E'. rewrite <- E'.
    cbn. repeat split. }
  destruct Hh as (H1 & H2 & H3 & H4).
  apply (undecodable_annotation_aborts utc accented_file h t 0 xc3 E Et).
  - lia.
  - lia.
  - rewrite H1, H2, H3. vm_compute. reflexivity.
  - vm_compute. discriminate.
Defined.

(** C5 fails as stated: the header, the channel table and the sample view of
    the file whose annotation holds the bytes 195 and 169 all decode, and the
    constructor returns no recording. *)
Lemma accented_annotation_is_not_recovered :
  exists h,
    read_header utc accented_file = Ok h /\
    succeeds (read_channels accented_file h) /\
    succeeds (read_samples accented_file h) /\
    read_annotations accented_file h = Raise UnicodeDecodeError /\
    ~ succeeds (decode utc accented_file).
Proof.
  eexists. split; [vm_compute; reflexivity |].
  split; [vm_compute; eexists; reflexivity |].
  split; [vm_compute; eexists; reflexivity |].
  split; [vm_compute; reflexivity |].
  intros [w Hw]. vm_compute in Hw. discriminate.
Qed.

(** ** What the constructor takes from its environment *)

(** Two zones read the same header up to the local-time strings. *)
Lemma read_header_zone env1 env2 buf :
  match read_header env1 buf, read_header env2 buf with
  | Ok h1, Ok h2 => h2 = with_local_times (fileCreated h2) (fileWritten h2) h1
  | Raise e1, Raise e2 => e1 = e2
  | _, _ => False
  end.
Proof.
  unfold read_header.
  repeat match goal with
         | |- context [bind ?r _] =>
             lazymatch r with
             | bind _ _ => fail
             | _ => destruct r; cbn [bind]; [| reflexivity]
             end
         end.
  reflexivity.
Qed.

Lemma read_header_same_zone env1 env2 buf :
  (forall t, utcoffset env1 t = utcoffset env2 t) ->
  read_header env1 buf = read_header env2 buf.
Proof.
  intros Hz. unfold read_header.
  repeat match goal with
         | |- bind ?r _ = bind ?r _ => destruct r; cbn [bind]; [| reflexivity]
         end.
  unfold fromtimestamp. rewrite !Hz. reflexivity.
Qed.

Lemma read_channels_with_local_times c wr buf h :
  read_channels buf (with_local_times c wr h) = read_channels buf h.
Proof. reflexivity. Qed.

Lemma read_annotations_with_local_times c wr buf h :
  read_annotations buf (with_local_times c wr h) = read_annotations buf h.
Proof. reflexivity. Qed.

Lemma read_samples_with_local_times c wr buf h :
  read_samples buf (with_local_times c wr h) = read_samples buf h.
Proof. reflexivity. Qed.

(** C9, as the code has it.  The constructor is a function of the buffer and
    of the local time zone of the process: two zones give the same outcome,
    failure or recording, up to the strings [fileCreated] and [fileWritten],
    which are local times; two zones with the same offsets give the same
    outcome in every field. *)
Theorem decode_depends_on_zone_in_local_times_only
    (env1 env2 : environment) (buf : bytes) :
  result_map forget_local_times (decode env1 buf)
  = result_map forget_local_times (decode env2 buf) /\
  ((forall t, utcoffset env1 t = utcoffset env2 t) ->
   decode env1 buf = decode env2 buf).
Proof.
  split.
  - unfold decode. pose proof (read_header_zone env1 env2 buf) as Hz.
    destruct (read_header env1 buf) as [h1 | e1],
             (read_header env2 buf) as [h2 | e2];
      try contradiction; [| subst; reflexivity].
    cbn [bind]. rewrite Hz.
    rewrite read_channels_with_local_times.
    destruct (read_channels buf h1) as [t | e]; [| reflexivity]. cbn [bind].
    rewrite read_annotations_with_local_times.
    destruct (read_annotations buf h1) as [a | e]; [| reflexivity]. cbn [bind].
    rewrite read_samples_with_local_times.
    destruct (read_samples buf h1) as [d | e]; reflexivity.
  - intros Hz. unfold decode. rewrite (read_header_same_zone env1 env2 buf Hz).
    reflexivity.
Qed.

Lemma decode_depends_on_zone_in_local_times_only_witness :
  decode utc standard_file
  = decode (mk_environment (fun t => t - t)) standard_file.
Proof.
  apply (decode_depends_on_zone_in_local_times_only utc
           (mk_environment (fun t => t - t)) standard_file).
  intros t. simpl. lia.
Defined.

(** C9 fails as stated: the same buffer decoded in two time zones gives two
    recordings that differ in [fileCreated]. *)
Lemma decode_differs_between_zones :
  exists w1 w2,
    decode utc standard_file = Ok w1 /\
    decode pacific standard_file = Ok w2 /\
    fileCreated (head w1) = "2023-11-14 22:13:20"%string /\
    fileCreated (head w2) = "2023-11-14 14:13:20"%string /\
    w1 <> w2.
Proof.
  eexists. eexists.
  split; [vm_compute; reflexivity |].
  split; [vm_compute; reflexivity |].
  split; [reflexivity |]. split; [reflexivity |].
  intros H. apply (f_equal (fun w => fileCreated (head w))) in H.
  cbn in H. discriminate.
Qed.

(** * Further properties of the reader and of the conversion *)

(** ** Ranges of the header fields *)

Lemma unpack_raw_length (size : Z) (buf bs : bytes) (offset : Z) :
  0 <= size -> unpack_raw size buf offset = Ok bs -> len bs = size.
Proof.
  intros Hs H. unfold unpack_raw in H.
  apply bind_Ok_inv in H. destruct H as (off & Hoff & H).
  assert (H0 : 0 <= off).
  { destruct (offset <? 0) eqn:E.
    - destruct (0 <? offset + size); [discriminate |].
      destruct (offset + len buf <? 0) eqn:E1; [discriminate |].
      apply Z.ltb_ge in E1. apply Ok_inj in Hoff. lia.
    - apply Z.ltb_ge in E. apply Ok_inj in Hoff. lia. }
  destruct (len buf - off <? size) eqn:E2; [discriminate |].
  apply Z.ltb_ge in E2. apply Ok_inj in H. subst bs.
  unfold len in *. rewrite length_firstn, length_skipn. lia.
Qed.

Lemma unpack_B_range buf offset v : unpack_B buf offset = Ok v -> 0 <= v <= 255.
Proof.
  unfold unpack_B. intros H. inv_bind H. apply Ok_inj in H. subst v.
  apply unpack_raw_length in Hx; [| lia].
  pose proof (le_uint_range x) as Hr. rewrite Hx in Hr.
  change (256 ^ 1) with 256 in Hr. lia.
Qed.

Lemma unpack_UI_range buf offset v : unpack_UI buf offset = Ok v -> 0 <= v < 65536.
Proof.
  unfold unpack_UI. intros H. inv_bind H. apply Ok_inj in H. subst v.
  apply unpack_raw_length in Hx; [| lia].
  pose proof (le_uint_range x) as Hr. rewrite Hx in Hr.
  change (256 ^ 2) with 65536 in Hr. lia.
Qed.

Lemma unpack_UL_range buf offset v :
  unpack_UL buf offset = Ok v -> 0 <= v < 4294967296.
Proof.
  unfold unpack_UL. intros H. inv_bind H. apply Ok_inj in H. subst v.
  apply unpack_raw_length in Hx; [| lia].
  pose proof (le_uint_range x) as Hr. rewrite Hx in Hr.
  change (256 ^ 4) with 4294967296 in Hr. lia.
Qed.

Lemma unpack_I_range buf offset v :
  unpack_I buf offset = Ok v -> -32768 <= v <= 32767.
Proof.
  unfold unpack_I. intros H. inv_bind H. apply Ok_inj in H. subst v.
  apply unpack_raw_length in Hx; [| lia].
  pose proof (le_uint_range x) as Hr. rewrite Hx in Hr.
  change (256 ^ 2) with 65536 in Hr.
  apply to_signed_16_range. exact Hr.
Qed.

(** Masking with a single bit. *)
Lemma land_pow2 (a k : Z) :
  0 <= k -> Z.land a (2 ^ k) = if Z.testbit a k then 2 ^ k else 0.
Proof.
  intros Hk. apply Z.bits_inj'. intros n Hn.
  rewrite Z.land_spec, Z.pow2_bits_eqb by assumption.
  destruct (Z.eqb_spec k n) as [-> | Hne].
  - rewrite andb_true_r. destruct (Z.testbit a n) eqn:E.
    + rewrite Z.pow2_bits_eqb, Z.eqb_refl by assumption. reflexivity.
    + rewrite Z.bits_0. reflexivity.
  - rewrite andb_false_r. destruct (Z.testbit a k).
    + rewrite Z.pow2_bits_eqb by assumption.
      symmetry. apply Z.eqb_neq. assumption.
    + rewrite Z.bits_0. reflexivity.
Qed.

Lemma land_31_range (b : Z) : 0 <= b -> 0 <= Z.land b 31 <= 31.
Proof.
  intros Hb. change 31 with (Z.ones 5) at 1 2.
  rewrite Z.land_ones by lia.
  pose proof (Z.mod_pos_bound b (2 ^ 5)) as Hm.
  change (2 ^ 5) with 32 in *. lia.
Qed.

(** X1. Every decoded recording has from 1 to 255 channels, and at most 31
    when the version field at offset 2 is below 144; its header size lies
    between 0 and the length of the buffer, its table offset and entry size
    are bytes, its data and trailer sizes are unsigned 32-bit and its
    annotation size unsigned 16-bit numbers. *)
Theorem decoded_header_ranges (env : environment) (buf : bytes) (w : windaq) :
  decode env buf = Ok w ->
  1 <= nChannels (head w) <= 255 /\
  (forall version, unpack_UI buf 2 = Ok version -> version < 144 ->
                   nChannels (head w) <= 31) /\
  0 <= _hChannels (head w) <= 255 /\
  0 <= _hChannelSize (head w) <= 255 /\
  0 <= _headSize (head w) <= Z.min 32767 (len buf) /\
  0 <= _dataSize (head w) < 2 ^ 32 /\
  0 <= _trailerSize (head w) < 2 ^ 32 /\
  0 <= _annoSize (head w) < 2 ^ 16.
Proof.
  intros H. apply decode_Ok_inv in H. destruct H as (_ & Hh & _ & _ & Hs).
  pose proof (header_nChannels_pos _ _ _ Hh) as Hpos.
  destruct (read_samples_Ok_inv _ _ _ _ Hh Hs)
    as (count & _ & Hc & Hhs0 & Hfit & _).
  apply read_header_Ok_inv in Hh.
  destruct Hh as (Hn & H4 & H5 & H6 & H8 & _ & H12 & H16 & _).
  apply unpack_B_range in H4, H5. apply unpack_I_range in H6.
  apply unpack_UL_range in H8, H12. apply unpack_UI_range in H16.
  change (2 ^ 32) with 4294967296. change (2 ^ 16) with 65536.
  assert (Hcases : forall version, unpack_UI buf 2 = Ok version ->
            exists b, unpack_B buf 0 = Ok b /\
                      nChannels (head w)
                      = if 144 <=? version then b else Z.land b 31).
  { intros version Hv. unfold read_nChannels in Hn. rewrite Hv in Hn.
    cbn [bind] in Hn. destruct (144 <=? version).
    - exists (nChannels (head w)). auto.
    - inv_bind Hn. apply Ok_inj in Hn. exists x. auto. }
  assert (Hv : exists version, unpack_UI buf 2 = Ok version).
  { unfold read_nChannels in Hn. destruct (unpack_UI buf 2) as [v | e];
      [exists v; reflexivity | discriminate]. }
  destruct Hv as (v0 & Hv0).
  destruct (Hcases v0 Hv0) as (b0 & Hb0 & Hn0).
  pose proof (unpack_B_range _ _ _ Hb0) as Hb0r.
  pose proof (land_31_range b0 (proj1 Hb0r)) as Hl.
  repeat split; try lia.
  - destruct (144 <=? v0); lia.
  - intros version Hver Hlt. rewrite Hv0 in Hver. apply Ok_inj in Hver. subst v0.
    destruct (144 <=? version) eqn:E; [apply Z.leb_le in E; lia |]. lia.
Qed.

Lemma decoded_header_ranges_witness :
  exists w, decode utc standard_file = Ok w /\ 1 <= nChannels (head w) <= 255.
Proof.
  assert (E : exists w, decode utc standard_file = Ok w)
    by (vm_compute; eexists; reflexivity).
  destruct E as [w E]. exists w. split; [exact E |].
  exact (proj1 (decoded_header_ranges utc standard_file w E)).
Defined.

(** X2. In every decoded recording [_packed] is 1 when bit 14 of the
    little-endian 16-bit word at offset 100 is set and 0 otherwise, and
    [_HiRes] is 2 when bit 1 of that word is set and 0 otherwise; no other
    bit of the word has any effect on them. *)
Theorem decoded_flags (env : environment) (buf : bytes) (w : windaq) :
  decode env buf = Ok w ->
  exists f0 f1,
    nth_error buf 100 = Some f0 /\ nth_error buf 101 = Some f1 /\
    let e27 := byte_val f0 + 256 * byte_val f1 in
    _packed (head w) = (if Z.testbit e27 14 then 1 else 0) /\
    _HiRes (head w) = (if Z.testbit e27 1 then 2 else 0).
Proof.
  intros H. apply decode_Ok_inv in H. destruct H as (_ & Hh & _).
  apply read_header_Ok_inv in Hh.
  destruct Hh as (_ & _ & _ & _ & _ & _ & _ & _ & _ & _ & (e27 & He & Hp & Hr)).
  apply unpack_UI_Ok_inv in He; [| lia].
  destruct He as (f0 & f1 & Hf0 & Hf1 & ->).
  exists f0, f1. split; [exact Hf0 |]. split; [exact Hf1 |].
  cbv zeta. rewrite Hp, Hr.
  set (e27 := byte_val f0 + 256 * byte_val f1).
  assert (H14 : Z.land e27 16384 = if Z.testbit e27 14 then 16384 else 0)
    by (apply (land_pow2 e27 14); lia).
  assert (H1 : Z.land e27 2 = if Z.testbit e27 1 then 2 else 0)
    by (apply (land_pow2 e27 1); lia).
  rewrite H14, H1.
  destruct (Z.testbit e27 14), (Z.testbit e27 1); split; reflexivity.
Qed.

Lemma decoded_flags_witness :
  exists w, decode utc packed_file = Ok w /\ _packed (head w) = 1.
Proof.
  assert (E : exists w, decode utc packed_file = Ok w)
    by (vm_compute; eexists; reflexivity).
  destruct E as [w E]. exists w. split; [exact E |].
  destruct (decoded_flags utc packed_file w E) as (f0 & f1 & H0 & H1 & Hp & _).
  vm_compute in H0, H1. injection H0 as <-. injection H1 as <-.
  rewrite Hp. reflexivity.
Defined.

(** ** Shape of the channel table *)

Lemma column_Forall {X : Type} (col : list X) (rd : Z -> result X)
    (P : X -> Prop) (n : Z) :
  len col = n ->
  (forall k, 0 <= k < n -> reads_as col k (rd k)) ->
  (forall k x, rd k = Ok x -> P x) ->
  Forall P col.
Proof.
  intros Hlen Hreads HP. apply Forall_forall. intros x Hx.
  apply In_nth_error in Hx. destruct Hx as (j & Hj).
  assert (Hlt : (j < List.length col)%nat) by (apply nth_error_Some; congruence).
  destruct (Hreads (Z.of_nat j)) as (x' & Hget & Hrd); [unfold len in Hlen; lia |].
  rewrite (getitem_nth col (Z.of_nat j) x) in Hget;
    [| lia | rewrite Nat2Z.id; assumption].
  apply Ok_inj in Hget. subst x'. eapply HP; eassumption.
Qed.

Lemma read_channels_all_lengths buf h t :
  read_channels buf h = Ok t ->
  len (scalingSlope t) = Z.max 0 (nChannels h) /\
  len (scalingIntercept t) = Z.max 0 (nChannels h) /\
  len (sampleRateDivisor t) = Z.max 0 (nChannels h) /\
  len (phyChannel t) = Z.max 0 (nChannels h).
Proof.
  intros H. repeat split.
  - refine (proj1 (column_reads_as scalingSlope
              (fun k => unpack_F buf (channel_offset h k)) buf h t eq_refl _ H)).
    column_step.
  - refine (proj1 (column_reads_as scalingIntercept
              (fun k => unpack_F buf (channel_offset h k + 4)) buf h t eq_refl _ H)).
    column_step.
  - refine (proj1 (column_reads_as sampleRateDivisor
              (fun k => if _packed h =? 0 then Ok 1
                        else unpack_B buf (channel_offset h k + 31))
              buf h t eq_refl _ H)).
    column_step.
  - refine (proj1 (column_reads_as phyChannel
              (fun k => unpack_B buf (channel_offset h k + 32)) buf h t eq_refl _ H)).
    column_step.
Qed.

(** Every unit tag of a channel table that was read has six bytes. *)
Lemma read_channels_tag_lengths buf h t :
  read_channels buf h = Ok t -> Forall (fun tag => len tag = 6) (engUnits t).
Proof.
  intros Ht.
  destruct (read_channels_lengths _ _ _ Ht) as (_ & _ & L5).
  apply (column_Forall _ (fun k => unpack_cccccc buf (channel_offset h k + 24))
           _ (Z.max 0 (nChannels h)) L5).
  - intros k Hk. apply (read_channels_layout buf h t Ht k). lia.
  - intros k x Hx. unfold unpack_cccccc in Hx.
    apply unpack_raw_length in Hx; [assumption | lia].
Qed.

(** X3. The seven lists of a decoded recording all have exactly [nChannels]
    entries; every unit tag has six bytes, every physical channel number is a
    byte, and every sample rate divisor is 1 in an unpacked file and a byte in
    a packed one. *)
Theorem decoded_channel_table_shape (env : environment) (buf : bytes) (w : windaq) :
  decode env buf = Ok w ->
  let n := nChannels (head w) in
  len (scalingSlope (chans w)) = n /\
  len (scalingIntercept (chans w)) = n /\
  len (calScaling (chans w)) = n /\
  len (calIntercept (chans w)) = n /\
  len (engUnits (chans w)) = n /\
  len (sampleRateDivisor (chans w)) = n /\
  len (phyChannel (chans w)) = n /\
  Forall (fun tag => len tag = 6) (engUnits (chans w)) /\
  Forall (fun p => 0 <= p <= 255) (phyChannel (chans w)) /\
  Forall (fun d => if _packed (head w) =? 0 then d = 1 else 0 <= d <= 255)
    (sampleRateDivisor (chans w)).
Proof.
  intros H n.
  destruct (decoded_tables _ _ _ H) as (Hn & L3 & L4 & L5 & _).
  apply decode_Ok_inv in H. destruct H as (_ & _ & Ht & _).
  destruct (read_channels_all_lengths _ _ _ Ht) as (L1 & L2 & L6 & L7).
  fold n in Hn, L1, L2, L3, L4, L5, L6, L7.
  rewrite Z.max_r in L1, L2, L6, L7 by lia.
  pose proof (read_channels_layout buf (head w) (chans w) Ht) as Lay.
  fold n in Lay.
  repeat (split; [assumption |]).
  split; [| split].
  - apply (read_channels_tag_lengths buf (head w)). assumption.
  - apply (column_Forall _ (fun k => unpack_B buf (channel_offset (head w) k + 32))
             _ n L7).
    + intros k Hk. apply (Lay k Hk).
    + intros k x Hx. eapply unpack_B_range; eassumption.
  - apply (column_Forall _
             (fun k => if _packed (head w) =? 0 then Ok 1
                       else unpack_B buf (channel_offset (head w) k + 31))
             _ n L6).
    + intros k Hk. apply (Lay k Hk).
    + intros k x Hx. destruct (_packed (head w) =? 0).
      * apply Ok_inj in Hx. congruence.
      * eapply unpack_B_range; eassumption.
Qed.

Lemma decoded_channel_table_shape_witness :
  exists w,
    decode utc packed_file = Ok w /\
    len (phyChannel (chans w)) = nChannels (head w).
Proof.
  assert (E : exists w, decode utc packed_file = Ok w)
    by (vm_compute; eexists; reflexivity).
  destruct E as [w E]. exists w. split; [exact E |].
  pose proof (decoded_channel_table_shape utc packed_file w E) as S.
  cbv zeta in S. tauto.
Defined.

(** ** The bytes behind the sample view *)

Lemma read_int16s_nth (n : nat) : forall (bs : bytes) (k : nat),
    (k < n)%nat -> (2 * n <= List.length bs)%nat ->
    exists lo hi,
      nth_error bs (2 * k) = Some lo /\
      nth_error bs (2 * k + 1) = Some hi /\
      nth_error (read_int16s bs n) k
      = Some (to_signed 16 (byte_val lo + 256 * byte_val hi)).
Proof.
  induction n as [| n IH]; intros bs k Hk Hlen; [lia |].
  destruct bs as [| lo [| hi rest]]; cbn [List.length] in Hlen; try lia.
  cbn [read_int16s]. destruct k as [| k].
  - exists lo, hi. repeat split.
    cbn [nth_error]. rewrite !le_uint_cons, le_uint_nil.
    do 2 f_equal. lia.
  - destruct (IH rest k) as (lo' & hi' & Hlo & Hhi & Hv); [lia | lia |].
    exists lo', hi'.
    replace (2 * S k)%nat with (S (S (2 * k))) by lia.
    replace (S (S (2 * k)) + 1)%nat with (S (S (2 * k + 1))) by lia.
    cbn [nth_error]. auto.
Qed.

(** X4. The sample view of a decoded recording holds the little-endian signed
    16-bit words that start at byte [_headSize] of the buffer: sample [k] is
    made of the bytes at [_headSize + 2k] and [_headSize + 2k + 1], the second
    being the high byte, read in two's complement. *)
Theorem sample_view_bytes (env : environment) (buf : bytes) (w : windaq) (k : Z) :
  decode env buf = Ok w ->
  0 <= k < len (npdata w) ->
  exists lo hi,
    nth_error buf (Z.to_nat (_headSize (head w) + 2 * k)) = Some lo /\
    nth_error buf (Z.to_nat (_headSize (head w) + 2 * k + 1)) = Some hi /\
    nth_error (npdata w) (Z.to_nat k)
    = Some (to_signed 16 (byte_val lo + 256 * byte_val hi)).
Proof.
  intros H Hk. apply decode_Ok_inv in H. destruct H as (_ & Hh & _ & _ & Hs).
  destruct (read_samples_Ok_inv _ _ _ _ Hh Hs)
    as (count & Hc & Hc0 & Hh0 & Hfit & Hlen & _).
  unfold read_samples in Hs. rewrite Hc in Hs. cbn [bind] in Hs.
  unfold frombuffer_int16 in Hs.
  destruct (_headSize (head w) <? 0) eqn:E1; [apply Z.ltb_lt in E1; lia |].
  destruct (len buf <? _headSize (head w)) eqn:E2; [apply Z.ltb_lt in E2; lia |].
  cbn [orb] in Hs.
  destruct (count <? 0) eqn:E3; [apply Z.ltb_lt in E3; lia |].
  destruct (len buf - _headSize (head w) <? count * 2) eqn:E4;
    [apply Z.ltb_lt in E4; lia |].
  cbn [bind] in Hs. apply Ok_inj in Hs.
  destruct (read_int16s_nth (Z.to_nat count)
              (skipn (Z.to_nat (_headSize (head w))) buf) (Z.to_nat k))
    as (lo & hi & Hlo & Hhi & Hv).
  - lia.
  - rewrite length_skipn. unfold len in *. lia.
  - exists lo, hi. rewrite nth_error_skipn in Hlo, Hhi.
    rewrite <- Hs, Hv. repeat split.
    + rewrite <- Hlo. f_equal. lia.
    + rewrite <- Hhi. f_equal. lia.
Qed.

Lemma sample_view_bytes_witness :
  exists w,
    decode utc standard_file = Ok w /\ nth_error (npdata w) 0 = Some (-4).
Proof.
  assert (E : exists w, decode utc standard_file = Ok w)
    by (vm_compute; eexists; reflexivity).
  destruct E as [w E]. exists w. split; [exact E |].
  assert (Hk : 0 <= 0 < len (npdata w)) by (by_decoding E; vm_compute; split; congruence).
  destruct (sample_view_bytes utc standard_file w 0 E Hk)
    as (lo & hi & Hlo & Hhi & Hv).
  change (Z.to_nat 0) with 0%nat in Hv. rewrite Hv.
  revert Hlo Hhi. by_decoding E. intros Hlo Hhi.
  vm_compute in Hlo, Hhi. injection Hlo as <-. injection Hhi as <-.
  reflexivity.
Defined.

(** ** Splitting at NUL *)

Lemma is_nul_NUL (c : ascii) : is_nul c = true -> c = NUL.
Proof.
  unfold is_nul. intros H. apply N.eqb_eq in H.
  rewrite <- (ascii_N_embedding c), H. reflexivity.
Qed.

Lemma is_nul_byte (b : byte) : is_nul (ascii_of_byte b) = (byte_val b =? 0).
Proof.
  unfold is_nul, byte_val. rewrite ascii_of_byte_via_N.
  rewrite N_ascii_embedding by (pose proof (Byte.to_N_bounded b); lia).
  destruct (N.eqb_spec (Byte.to_N b) 0) as [-> | Hne]; [reflexivity |].
  symmetry. apply Z.eqb_neq. lia.
Qed.

Lemma join_nul_cons (p : string) (rest : list string) :
  rest <> [] -> join_nul (p :: rest) = (p ++ String NUL (join_nul rest))%string.
Proof. destruct rest; [congruence | reflexivity]. Qed.

(** Joining the parts of a split with NUL gives the string back. *)
Lemma join_split_nul (s : string) : join_nul (split_nul s) = s.
Proof.
  induction s as [| c rest IH]; [reflexivity |].
  cbn [split_nul]. pose proof (split_nul_nonempty rest) as Hne.
  destruct (is_nul c) eqn:E.
  - rewrite join_nul_cons by assumption. rewrite IH.
    apply is_nul_NUL in E. subst c. reflexivity.
  - destruct (split_nul rest) as [| w ws]; [congruence |].
    destruct ws as [| w' ws].
    + simpl in *. congruence.
    + rewrite join_nul_cons by discriminate.
      rewrite join_nul_cons in IH by discriminate.
      cbn [append]. rewrite IH. reflexivity.
Qed.

Lemma split_nul_count (s : string) :
  List.length (split_nul s)
  = S (List.length (filter is_nul (list_ascii_of_string s))).
Proof.
  induction s as [| c rest IH]; [reflexivity |].
  cbn [split_nul list_ascii_of_string filter].
  destruct (is_nul c).
  - cbn [List.length]. rewrite IH. reflexivity.
  - pose proof (split_nul_nonempty rest) as Hne.
    destruct (split_nul rest) as [| w ws]; [congruence |].
    cbn [List.length] in *. assumption.
Qed.

Lemma split_nul_parts (s : string) :
  Forall (fun p => has_nul p = false) (split_nul s).
Proof.
  induction s as [| c rest IH]; [repeat constructor |].
  cbn [split_nul]. destruct (is_nul c) eqn:E.
  - constructor; [reflexivity | assumption].
  - pose proof (split_nul_nonempty rest) as Hne.
    destruct (split_nul rest) as [| w ws]; [congruence |].
    inversion IH as [| ? ? Hw Hws]; subst.
    constructor; [| assumption].
    unfold has_nul in *. cbn [list_ascii_of_string existsb].
    rewrite E, Hw. reflexivity.
Qed.

(** ** The text of the annotation block *)

Lemma append_String_assoc (s : string) (c : ascii) (t : string) :
  ((s ++ String c EmptyString) ++ t)%string = (s ++ String c t)%string.
Proof.
  induction s as [| a s IH]; [reflexivity |].
  simpl. rewrite IH. reflexivity.
Qed.

Lemma append_empty_r (s : string) : (s ++ EmptyString)%string = s.
Proof.
  induction s as [| a s IH]; [reflexivity |]. simpl. rewrite IH. reflexivity.
Qed.

Lemma unpack_c_Ok_inv buf offset b :
  0 <= offset -> unpack_c buf offset = Ok b ->
  nth_error buf (Z.to_nat offset) = Some b.
Proof.
  intros H0 H. unfold unpack_c in H. inv_bind H.
  apply unpack_raw_Ok_inv in Hx; [| assumption]. destruct Hx as [Hlen ->].
  destruct (nth_error_in_range buf offset) as [b0 Hb0]; [lia |].
  change (Z.to_nat 1) with 1%nat in H.
  rewrite (firstn_1_skipn _ _ _ Hb0) in H. apply Ok_inj in H. congruence.
Qed.

(** What the loop over the annotation block has accumulated when it ends. *)
Lemma annotation_loop_text buf aOffset :
  forall (n : nat) (start : Z) (s s' : string),
    0 <= aOffset + start ->
    for_range (read_annotation_char buf aOffset) n start s = Ok s' ->
    let block := firstn n (skipn (Z.to_nat (aOffset + start)) buf) in
    List.length block = n /\
    Forall (fun b => byte_val b < 128) block /\
    s' = (s ++ text_of_bytes block)%string.
Proof.
  induction n as [| n IH]; intros start s s' H0 H.
  - cbn [for_range] in H. apply Ok_inj in H. subst s'.
    cbv zeta. cbn [firstn]. repeat split; [constructor |].
    symmetry. apply append_empty_r.
  - cbn [for_range] in H. apply bind_Ok_inv in H. destruct H as (s1 & H1 & H).
    unfold read_annotation_char in H1. inv_bind H1. apply Ok_inj in H1. subst s1.
    apply unpack_c_Ok_inv in Hx; [| assumption].
    unfold decode_utf8 in Hx0.
    destruct (byte_val x <? 128) eqn:E; [| discriminate].
    apply Z.ltb_lt in E. apply Ok_inj in Hx0. subst x0.
    apply IH in H; [| lia]. cbv zeta in H. destruct H as (Hlen & Hall & Hs').
    cbv zeta.
    rewrite (firstn_succ_skipn _ _ _ _ Hx).
    replace (S (Z.to_nat (aOffset + start)))
      with (Z.to_nat (aOffset + (start + 1))) by lia.
    split; [cbn [List.length]; congruence |].
    split; [constructor; assumption |].
    rewrite Hs'. unfold text_of_bytes. cbn [map string_of_list_ascii].
    apply append_String_assoc.
Qed.

Lemma list_ascii_of_text (bs : list byte) :
  list_ascii_of_string (text_of_bytes bs) = map ascii_of_byte bs.
Proof. unfold text_of_bytes. apply list_ascii_of_string_of_list_ascii. Qed.

Lemma filter_is_nul_bytes (bs : list byte) :
  List.length (filter is_nul (map ascii_of_byte bs))
  = List.length (filter (fun b => byte_val b =? 0) bs).
Proof.
  induction bs as [| b bs IH]; [reflexivity |].
  cbn [map filter]. rewrite is_nul_byte.
  destruct (byte_val b =? 0); cbn [List.length]; congruence.
Qed.

(** X5. In every decoded recording the annotation block starts at a
    non-negative offset, lies inside the buffer and holds 7-bit bytes only;
    the annotation parts joined with NUL are the text of the block, no part
    holds a NUL, and their number is one more than the number of NUL bytes
    of the block. *)
Theorem annotations_round_trip (env : environment) (buf : bytes) (w : windaq) :
  decode env buf = Ok w ->
  let aOffset :=
    _headSize (head w) + _dataSize (head w) + _trailerSize (head w) in
  let block :=
    firstn (Z.to_nat (_annoSize (head w))) (skipn (Z.to_nat aOffset) buf) in
  0 <= aOffset /\
  len block = _annoSize (head w) /\
  Forall (fun b => byte_val b < 128) block /\
  join_nul (_annotations w) = text_of_bytes block /\
  Forall (fun p => has_nul p = false) (_annotations w) /\
  len (_annotations w) = 1 + len (filter (fun b => byte_val b =? 0) block).
Proof.
  intros H aOffset block.
  apply decode_Ok_inv in H. destruct H as (_ & Hh & _ & Ha & Hs).
  destruct (read_samples_Ok_inv _ _ _ _ Hh Hs) as (count & _ & _ & Hh0 & _).
  apply read_header_Ok_inv in Hh.
  destruct Hh as (_ & _ & _ & _ & H8 & _ & H12 & H16 & _).
  apply unpack_UL_range in H8, H12. apply unpack_UI_range in H16.
  assert (H0 : 0 <= aOffset) by (unfold aOffset; lia).
  unfold read_annotations in Ha. fold aOffset in Ha.
  apply bind_Ok_inv in Ha. destruct Ha as (aTemp & Hloop & Ha).
  apply Ok_inj in Ha.
  apply annotation_loop_text in Hloop; [| lia].
  cbv zeta in Hloop. rewrite Z.add_0_r in Hloop. fold block in Hloop.
  destruct Hloop as (Hlen & Hall & HaTemp). simpl in HaTemp. subst aTemp.
  split; [assumption |].
  split; [unfold len; rewrite Hlen; lia |].
  split; [assumption |].
  rewrite <- Ha.
  split; [apply join_split_nul |].
  split; [apply split_nul_parts |].
  unfold len. rewrite split_nul_count, list_ascii_of_text, filter_is_nul_bytes.
  lia.
Qed.

Lemma annotations_round_trip_witness :
  exists w,
    decode utc standard_file = Ok w /\
    join_nul (_annotations w) = text_of_bytes (map byte_of_Z [67; 104; 49; 0]).
Proof.
  assert (E : exists w, decode utc standard_file = Ok w)
    by (vm_compute; eexists; reflexivity).
  destruct E as [w E]. exists w. split; [exact E |].
  pose proof (annotations_round_trip utc standard_file w E) as R.
  cbv zeta in R. destruct R as (_ & _ & _ & R & _).
  rewrite R. by_decoding E. vm_compute. reflexivity.
Defined.

(** ** [unit] *)

Lemma decode_all_text (bs : list byte) : forall acc,
    decode_all bs acc
    = if forallb (fun b => byte_val b <? 128) bs
      then Ok (acc ++ text_of_bytes bs)%string
      else Raise UnicodeDecodeError.
Proof.
  induction bs as [| b bs IH]; intros acc.
  - cbn [decode_all forallb]. unfold text_of_bytes. cbn [map string_of_list_ascii].
    rewrite append_empty_r. reflexivity.
  - cbn [decode_all forallb]. unfold decode_utf8.
    destruct (byte_val b <? 128); [| reflexivity].
    cbn [bind andb]. rewrite IH.
    destruct (forallb _ bs); [| reflexivity].
    unfold text_of_bytes. cbn [map string_of_list_ascii].
    rewrite append_String_assoc. reflexivity.
Qed.

(** X6. For a channel number in range on a decoded recording, [unit] works on
    the six bytes at entry offset 24: it raises [UnicodeDecodeError] when one
    of them is 128 or more, and otherwise returns their text with the NULs
    removed and the surrounding whitespace stripped. *)
Theorem unit_of_channel (env : environment) (buf : bytes) (w : windaq) (c : Z) :
  decode env buf = Ok w ->
  1 <= c <= nChannels (head w) ->
  exists tag,
    unpack_cccccc buf (channel_offset (head w) (c - 1) + 24) = Ok tag /\
    len tag = 6 /\
    unit w c
    = if forallb (fun b => byte_val b <? 128) tag
      then Ok (strip (remove_nul (text_of_bytes tag)))
      else Raise UnicodeDecodeError.
Proof.
  intros H Hc. apply decode_Ok_inv in H. destruct H as (_ & _ & Ht & _).
  destruct (read_channels_layout buf (head w) (chans w) Ht (c - 1))
    as (_ & _ & _ & _ & (tag & Hget & Hrd) & _); [lia |].
  exists tag. split; [assumption |].
  split; [unfold unpack_cccccc in Hrd; apply unpack_raw_length in Hrd; lia |].
  unfold unit. rewrite Hget. cbn [bind]. rewrite decode_all_text.
  destruct (forallb _ tag); reflexivity.
Qed.

Lemma unit_of_channel_witness :
  exists w, decode utc standard_file = Ok w /\ unit w 1 = Ok "mA"%string.
Proof.
  assert (E : exists w, decode utc standard_file = Ok w)
    by (vm_compute; eexists; reflexivity).
  destruct E as [w E]. exists w. split; [exact E |].
  assert (Hn : 1 <= 1 <= nChannels (head w)) by (by_decoding E; lia).
  destruct (unit_of_channel utc standard_file w 1 E Hn) as (tag & Htag & _ & Hu).
  rewrite Hu. revert Htag. by_decoding E. intros Htag.
  vm_compute in Htag. apply Ok_inj in Htag. subst tag.
  vm_compute. reflexivity.
Defined.

(** ** Stripping *)

Lemma lstrip_suffix (l : list ascii) : exists p, l = p ++ lstrip l.
Proof.
  induction l as [| c l IH]; [exists []; reflexivity |].
  cbn [lstrip]. destruct (isspace c).
  - destruct IH as (p & Hp). exists (c :: p). simpl. congruence.
  - exists []. reflexivity.
Qed.

Lemma lstrip_head (l : list ascii) (c : ascii) (t : list ascii) :
  lstrip l = c :: t -> isspace c = false.
Proof.
  induction l as [| a l IH]; cbn [lstrip]; [discriminate |].
  destruct (isspace a) eqn:E; [assumption |].
  intros H. injection H as -> _. assumption.
Qed.

Lemma lstrip_fixed (l : list ascii) :
  (forall c t, l = c :: t -> isspace c = false) -> lstrip l = l.
Proof.
  destruct l as [| a l]; [reflexivity |]. intros H.
  cbn [lstrip]. rewrite (H a l eq_refl). reflexivity.
Qed.

Lemma lstrip_length (l : list ascii) : (List.length (lstrip l) <= List.length l)%nat.
Proof.
  destruct (lstrip_suffix l) as (p & Hp).
  rewrite Hp at 2. rewrite length_app. lia.
Qed.

Lemma lstrip_incl (l : list ascii) : incl (lstrip l) l.
Proof.
  destruct (lstrip_suffix l) as (p & Hp). intros x Hx.
  rewrite Hp. apply in_or_app. right. assumption.
Qed.

Lemma strip_list_clean (l : list ascii) : clean_ends (strip_list l).
Proof.
  unfold strip_list. set (m := lstrip l). set (m' := lstrip (rev m)).
  split.
  - intros c t Hout.
    assert (Hm' : m' = rev t ++ [c]).
    { rewrite <- (rev_involutive m'), Hout. reflexivity. }
    destruct (lstrip_suffix (rev m)) as (p & Hp). fold m' in Hp.
    assert (Hm : m = c :: rev (p ++ rev t)).
    { rewrite <- (rev_involutive m), Hp, Hm'.
      rewrite app_assoc, rev_app_distr. reflexivity. }
    apply (lstrip_head l c _ Hm).
  - intros t c Hout.
    assert (Hm' : m' = c :: rev t).
    { rewrite <- (rev_involutive m'), Hout, rev_app_distr. reflexivity. }
    apply (lstrip_head (rev m) c _ Hm').
Qed.

Lemma strip_list_fixed (l : list ascii) : clean_ends l -> strip_list l = l.
Proof.
  intros [Hhead Hlast]. unfold strip_list.
  rewrite (lstrip_fixed l Hhead).
  rewrite lstrip_fixed; [apply rev_involutive |].
  intros c t Hrev. apply (Hlast (rev t) c).
  rewrite <- (rev_involutive l), Hrev. reflexivity.
Qed.

Lemma strip_list_length (l : list ascii) :
  (List.length (strip_list l) <= List.length l)%nat.
Proof.
  unfold strip_list. rewrite length_rev.
  etransitivity; [apply lstrip_length |]. rewrite length_rev. apply lstrip_length.
Qed.

Lemma strip_list_incl (l : list ascii) : incl (strip_list l) l.
Proof.
  unfold strip_list. intros x Hx.
  apply in_rev in Hx. apply lstrip_incl in Hx. apply in_rev in Hx.
  apply lstrip_incl in Hx. assumption.
Qed.

Lemma list_ascii_of_strip (s : string) :
  list_ascii_of_string (strip s) = strip_list (list_ascii_of_string s).
Proof. unfold strip. apply list_ascii_of_string_of_list_ascii. Qed.

Lemma list_ascii_of_remove_nul (s : string) :
  list_ascii_of_string (remove_nul s)
  = filter (fun c => negb (is_nul c)) (list_ascii_of_string s).
Proof.
  induction s as [| c s IH]; [reflexivity |].
  cbn [remove_nul list_ascii_of_string filter].
  destruct (is_nul c); cbn [negb list_ascii_of_string]; congruence.
Qed.

Lemma length_list_ascii_of_string (s : string) :
  List.length (list_ascii_of_string s) = String.length s.
Proof.
  induction s as [| c s IH]; [reflexivity |]. simpl. congruence.
Qed.

Lemma getitem_Ok_In {A : Type} (l : list A) (i : Z) (a : A) :
  getitem l i = Ok a -> In a l.
Proof.
  unfold getitem. intros H.
  destruct ((_ <? 0) || (len l <=? _)); [discriminate |].
  destruct (nth_error l _) as [x |] eqn:E; [| discriminate].
  apply Ok_inj in H. subst x. eapply nth_error_In; eassumption.
Qed.

(** X7. Whatever [unit] returns on a decoded recording holds no NUL, neither
    begins nor ends with whitespace, so that stripping it again changes
    nothing, and has at most six characters. *)
Theorem unit_is_clean (env : environment) (buf : bytes) (w : windaq)
    (c : Z) (u : string) :
  decode env buf = Ok w ->
  unit w c = Ok u ->
  has_nul u = false /\
  clean_ends (list_ascii_of_string u) /\
  strip u = u /\
  (String.length u <= 6)%nat.
Proof.
  intros H Hu. apply decode_Ok_inv in H. destruct H as (_ & _ & Ht & _).
  pose proof (read_channels_tag_lengths _ _ _ Ht) as Htags.
  unfold unit in Hu. apply bind_Ok_inv in Hu. destruct Hu as (tag & Hget & Hu).
  rewrite decode_all_text in Hu.
  destruct (forallb _ tag); [| discriminate].
  cbn [bind] in Hu. apply Ok_inj in Hu. simpl in Hu.
  apply getitem_Ok_In in Hget.
  pose proof (proj1 (Forall_forall _ _) Htags tag Hget) as Hlen.
  cbv beta in Hlen.
  set (raw := list_ascii_of_string (remove_nul (text_of_bytes tag))) in *.
  assert (Hlist : list_ascii_of_string u = strip_list raw).
  { rewrite <- Hu. apply list_ascii_of_strip. }
  assert (Hclean : clean_ends (list_ascii_of_string u)).
  { rewrite Hlist. apply strip_list_clean. }
  split; [| split; [assumption | split]].
  - unfold has_nul. rewrite Hlist.
    destruct (existsb is_nul (strip_list raw)) eqn:E; [| reflexivity].
    apply existsb_exists in E. destruct E as (x & Hx & Hnul).
    apply strip_list_incl in Hx. unfold raw in Hx.
    rewrite list_ascii_of_remove_nul in Hx. apply filter_In in Hx.
    destruct Hx as (_ & Hx). rewrite Hnul in Hx. discriminate.
  - change (strip u)
      with (string_of_list_ascii (strip_list (list_ascii_of_string u))).
    rewrite strip_list_fixed by assumption.
    apply string_of_list_ascii_of_string.
  - rewrite <- length_list_ascii_of_string, Hlist.
    etransitivity; [apply strip_list_length |].
    unfold raw. rewrite list_ascii_of_remove_nul.
    etransitivity; [apply filter_length_le |].
    rewrite list_ascii_of_text, length_map. unfold len in Hlen. lia.
Qed.

Lemma unit_is_clean_witness :
  exists w u,
    decode utc standard_file = Ok w /\ unit w 1 = Ok u /\ strip u = u.
Proof.
  assert (E : exists w, decode utc standard_file = Ok w)
    by (vm_compute; eexists; reflexivity).
  destruct E as [w E].
  assert (Eu : exists u, unit w 1 = Ok u)
    by (by_decoding E; vm_compute; eexists; reflexivity).
  destruct Eu as [u Eu]. exists w, u.
  split; [exact E |]. split; [exact Eu |].
  destruct (unit_is_clean utc standard_file w 1 u E Eu) as (_ & _ & Hs & _).
  exact Hs.
Defined.

(** ** How many values a channel has *)

Lemma take_stride_length {A : Type} (l : list A) (step : Z) :
  0 <= step ->
  forall (count : nat) (i : Z),
    0 <= i ->
    (count = 0%nat \/ i + (Z.of_nat count - 1) * step < len l) ->
    List.length (take_stride l i step count) = count.
Proof.
  intros Hs. induction count as [| count IH]; intros i Hi Hfit; [reflexivity |].
  cbn [take_stride].
  destruct Hfit as [Hz | Hfit]; [discriminate |].
  assert (Hstep : 0 <= Z.of_nat count * step) by (apply Z.mul_nonneg_nonneg; lia).
  destruct (nth_error_in_range l i) as [a Ha]; [lia |].
  rewrite Ha. cbn [List.length]. f_equal.
  apply IH; [lia |].
  destruct count as [| count']; [left; reflexivity | right]. lia.
Qed.

Lemma slice_from_length {A : Type} (a : list A) (start step : Z) :
  0 <= start -> 0 < step ->
  exists d,
    slice_from a start step = Ok d /\
    len d = (len a - Z.min start (len a) + step - 1) / step.
Proof.
  intros H0 Hs. unfold slice_from.
  destruct (step =? 0) eqn:E; [apply Z.eqb_eq in E; lia |].
  destruct (0 <? step) eqn:E1; [| apply Z.ltb_ge in E1; lia].
  destruct (start <? 0) eqn:E2; [apply Z.ltb_lt in E2; lia |].
  eexists. split; [reflexivity |].
  pose proof (len_nonneg a) as Hn.
  set (s0 := Z.min start (len a)).
  set (q := (len a - s0 + step - 1) / step).
  assert (Hq0 : 0 <= q) by (apply Z.div_pos; lia).
  assert (Hq : q * step <= len a - s0 + step - 1).
  { rewrite Z.mul_comm. apply Z.mul_div_le. lia. }
  unfold len at 1. rewrite take_stride_length; [lia | lia | lia |].
  destruct (Z.to_nat q) eqn:Eq; [left; reflexivity | right].
  rewrite <- Eq, Z2Nat.id by lia. lia.
Qed.

Lemma channel_share (L n c : Z) :
  0 <= L -> 1 <= c <= n ->
  (L - Z.min (c - 1) L + n - 1) / n
  = L / n + (if c - 1 <? L mod n then 1 else 0).
Proof.
  intros HL Hc.
  pose proof (Z.div_mod L n ltac:(lia)) as Hdm.
  pose proof (Z.mod_pos_bound L n ltac:(lia)) as Hm.
  assert (HQ : 0 <= L / n) by (apply Z.div_pos; lia).
  destruct (Z.le_gt_cases (c - 1) L) as [Hle | Hgt].
  - rewrite Z.min_l by lia.
    destruct (c - 1 <? L mod n) eqn:E;
      [apply Z.ltb_lt in E | apply Z.ltb_ge in E]; symmetry.
    + apply (Z.div_unique _ n _ (L mod n - c)); lia.
    + apply (Z.div_unique _ n _ (L mod n - c + n)); lia.
  - rewrite Z.min_r by lia.
    assert (HQ0 : L / n = 0) by (apply Z.div_small; lia).
    assert (HR : L mod n = L) by (apply Z.mod_small; lia).
    rewrite HQ0, HR.
    destruct (c - 1 <? L) eqn:E; [apply Z.ltb_lt in E; lia |].
    replace (L - L + n - 1) with (n - 1) by lia.
    apply Z.div_small. lia.
Qed.

(** The number of values that [data] returns for a channel in range. *)
Lemma data_Ok_length env buf w c :
  decode env buf = Ok w ->
  1 <= c <= nChannels (head w) ->
  exists vals,
    data w c = Ok vals /\
    len vals
    = len (npdata w) / nChannels (head w)
      + (if c - 1 <? len (npdata w) mod nChannels (head w) then 1 else 0).
Proof.
  intros H Hc.
  destruct (decoded_tables _ _ _ H) as (Hn & L1 & L2 & _).
  destruct (getitem_in_range (calScaling (chans w)) (c - 1)) as [cal Hcal]; [lia |].
  destruct (getitem_in_range (calIntercept (chans w)) (c - 1)) as [icpt Hicpt]; [lia |].
  destruct (slice_from_length (npdata w) (c - 1) (nChannels (head w)))
    as (d & Hd & Hlen); [lia | lia |].
  eexists. split.
  - unfold data. rewrite Hd. cbn [bind]. rewrite Hcal. cbn [bind].
    rewrite Hicpt. reflexivity.
  - unfold len at 1. rewrite !length_map. fold (len d). rewrite Hlen.
    apply channel_share; [apply len_nonneg | lia].
Qed.

(** X8. On a decoded recording whose sample view holds [L] words, [data]
    returns for channel [c] of [n] exactly [L / n] values, and one more when
    [c - 1 < L mod n]: every channel gets the same number of values when the
    view is a whole number of scans, and otherwise the first [L mod n]
    channels get one value more than the others. *)
Theorem data_length (env : environment) (buf : bytes) (w : windaq) (c : Z) :
  decode env buf = Ok w ->
  1 <= c <= nChannels (head w) ->
  exists vals,
    data w c = Ok vals /\
    len vals
    = len (npdata w) / nChannels (head w)
      + (if c - 1 <? len (npdata w) mod nChannels (head w) then 1 else 0).
Proof. exact (data_Ok_length env buf w c). Qed.

Lemma data_length_witness :
  exists w vals,
    decode utc standard_file = Ok w /\ data w 1 = Ok vals /\ len vals = 9.
Proof.
  assert (E : exists w, decode utc standard_file = Ok w)
    by (vm_compute; eexists; reflexivity).
  destruct E as [w E].
  assert (Hn : 1 <= 1 <= nChannels (head w)) by (by_decoding E; lia).
  destruct (data_length utc standard_file w 1 E Hn) as (vals & Hv & Hlen).
  exists w, vals. split; [exact E |]. split; [exact Hv |].
  rewrite Hlen. by_decoding E. reflexivity.
Defined.

(** ** [time] *)

Lemma nSample_sign_clear env buf h :
  read_header env buf = Ok h -> sign_clear (nSample h).
Proof.
  intros Hh. pose proof (header_nChannels_pos _ _ _ Hh) as Hn.
  apply read_header_Ok_inv in Hh.
  destruct Hh as (_ & _ & _ & _ & Hd & Hdiv & _).
  apply int_truediv_Ok_inv in Hdiv. destruct Hdiv as (_ & ->).
  apply unpack_UL_range in Hd.
  apply fdiv_sign_clear; apply float_of_int_sign_clear; lia.
Qed.

Lemma nth_error_arange (m k : Z) :
  0 <= k < m -> nth_error (arange m) (Z.to_nat k) = Some k.
Proof.
  intros Hk. unfold arange. rewrite nth_error_map, nth_error_seq.
  destruct (Z.to_nat k <? Z.to_nat m)%nat eqn:E.
  - simpl. f_equal. lia.
  - apply Nat.ltb_ge in E. lia.
Qed.

(** X9. On a decoded recording [time] returns, when it returns, exactly
    [int(nSample)] values, a number that is never negative; the value at
    position [k] is [k * timeStep], and the first one is a zero whenever the
    time step is a finite number. *)
Theorem time_values (env : environment) (buf : bytes) (w : windaq)
    (ts : list float) :
  decode env buf = Ok w ->
  time w = Ok ts ->
  exists m,
    int_of_float (nSample (head w)) = Ok m /\
    0 <= m /\
    len ts = m /\
    (forall k, 0 <= k < m ->
               nth_error ts (Z.to_nat k)
               = Some (fmul (float_of_int k) (timeStep (head w)))) /\
    (0 < m ->
     match timeStep (head w) with
     | S754_zero _ | S754_finite _ _ _ =>
         exists s, nth_error ts 0 = Some (S754_zero s)
     | _ => nth_error ts 0 = Some S754_nan
     end).
Proof.
  intros H Ht. apply decode_Ok_inv in H. destruct H as (_ & Hh & _).
  unfold time in Ht. apply bind_Ok_inv in Ht. destruct Ht as (m & Hm & Ht).
  apply Ok_inj in Ht. exists m.
  assert (Hm0 : 0 <= m).
  { eapply int_of_float_sign_clear; [| eassumption].
    eapply nSample_sign_clear; eassumption. }
  assert (Hnth : forall k, 0 <= k < m ->
             nth_error ts (Z.to_nat k)
             = Some (fmul (float_of_int k) (timeStep (head w)))).
  { intros k Hk. rewrite <- Ht, nth_error_map, nth_error_arange by assumption.
    reflexivity. }
  split; [assumption |]. split; [assumption |]. split; [| split; [assumption |]].
  - rewrite <- Ht. unfold len, arange. rewrite !length_map, length_seq. lia.
  - intros Hpos. specialize (Hnth 0 ltac:(lia)).
    change (Z.to_nat 0) with 0%nat in Hnth. rewrite Hnth.
    destruct (timeStep (head w)) as [s | s | | s mt et];
      [eexists | | | eexists]; reflexivity.
Qed.

Lemma time_values_witness :
  exists w ts,
    decode utc standard_file = Ok w /\ time w = Ok ts /\ len ts = 9.
Proof.
  assert (E : exists w, decode utc standard_file = Ok w)
    by (vm_compute; eexists; reflexivity).
  destruct E as [w E].
  assert (Et : exists ts, time w = Ok ts)
    by (by_decoding E; vm_compute; eexists; reflexivity).
  destruct Et as [ts Et]. exists w, ts.
  split; [exact E |]. split; [exact Et |].
  destruct (time_values utc standard_file w ts E Et) as (m & Hm & _ & Hlen & _).
  rewrite Hlen. revert Hm. by_decoding E. intros Hm.
  vm_compute in Hm. apply Ok_inj in Hm. symmetry. exact Hm.
Defined.

(** ** Column names *)

Lemma append_assoc (s t u : string) :
  ((s ++ t) ++ u)%string = (s ++ (t ++ u))%string.
Proof.
  induction s as [| a s IH]; [reflexivity |]. simpl. rewrite IH. reflexivity.
Qed.

Lemma all_digits_uint (d : Decimal.uint) :
  all_digits (DecimalString.NilEmpty.string_of_uint d) = true.
Proof. induction d; simpl; auto. Qed.

Lemma str_of_int_digits (n : Z) : 0 <= n -> all_digits (str_of_int n) = true.
Proof.
  intros Hn. unfold str_of_int. destruct n as [| p | p]; [reflexivity | | lia].
  cbn [Z.to_int DecimalString.NilZero.string_of_int].
  unfold DecimalString.NilZero.string_of_uint.
  destruct (Pos.to_uint p); try apply all_digits_uint. reflexivity.
Qed.

Lemma to_int_not_nil (n : Z) :
  Z.to_int n <> Decimal.Pos Decimal.Nil /\ Z.to_int n <> Decimal.Neg Decimal.Nil.
Proof.
  destruct n as [| p | p]; cbn [Z.to_int]; split; try discriminate;
    intros H; injection H as H;
    exact (DecimalPos.Unsigned.to_uint_nonnil p H).
Qed.

Lemma str_of_int_inj (a b : Z) : str_of_int a = str_of_int b -> a = b.
Proof.
  unfold str_of_int. intros H.
  apply DecimalZ.to_int_inj.
  destruct (to_int_not_nil a) as [Ha1 Ha2], (to_int_not_nil b) as [Hb1 Hb2].
  pose proof (DecimalString.NilZero.isi _ Ha1 Ha2) as Ia.
  pose proof (DecimalString.NilZero.isi _ Hb1 Hb2) as Ib.
  rewrite H in Ia. congruence.
Qed.

Lemma digits_prefix_unique (s1 : string) : forall s2 t1 t2,
    all_digits s1 = true -> all_digits s2 = true ->
    no_leading_digit t1 -> no_leading_digit t2 ->
    (s1 ++ t1)%string = (s2 ++ t2)%string -> s1 = s2.
Proof.
  induction s1 as [| c s1 IH]; intros [| c' s2] t1 t2 H1 H2 T1 T2 H.
  - reflexivity.
  - simpl in H, H2. subst t1. simpl in T1.
    apply andb_prop in H2. destruct H2 as [H2 _]. congruence.
  - simpl in H, H1. subst t2. simpl in T2.
    apply andb_prop in H1. destruct H1 as [H1 _]. congruence.
  - simpl in H, H1, H2. injection H as -> H.
    apply andb_prop in H1. apply andb_prop in H2.
    f_equal. eapply IH; [| | exact T1 | exact T2 | exact H]; tauto.
Qed.

(** A column name is "Channel_", the channel number in decimal, and a rest
    that is empty or begins with an underscore. *)
Lemma column_name_shape (ch : Z) (a u : string) :
  exists rest,
    column_name ch a u = ("Channel_" ++ str_of_int ch ++ rest)%string /\
    no_leading_digit rest.
Proof.
  unfold column_name.
  destruct (nonempty a && nonempty (strip a)),
           (nonempty u && nonempty (strip u)).
  - exists ("_" ++ strip a ++ "_" ++ strip u)%string. split; [| reflexivity].
    rewrite !append_assoc. reflexivity.
  - exists ("_" ++ strip a)%string. split; reflexivity.
  - exists ("_" ++ strip u)%string. split; [| reflexivity].
    rewrite !append_assoc. reflexivity.
  - exists EmptyString. split; [| exact I].
    rewrite append_empty_r. reflexivity.
Qed.

Lemma column_name_inj (ch ch' : Z) (a u a' u' : string) :
  0 <= ch -> 0 <= ch' ->
  column_name ch a u = column_name ch' a' u' -> ch = ch'.
Proof.
  intros Hch Hch'.
  destruct (column_name_shape ch a u) as (r & -> & Hr).
  destruct (column_name_shape ch' a' u') as (r' & -> & Hr').
  intros H. simpl in H. injection H as H.
  apply str_of_int_inj.
  apply (digits_prefix_unique _ _ r r');
    auto using str_of_int_digits.
Qed.

Lemma column_names_never_time (ch : Z) (a u : string) :
  column_name ch a u <> "Time_seconds"%string.
Proof.
  destruct (column_name_shape ch a u) as (r & -> & _). discriminate.
Qed.

(** X12. The column names of two channels are equal only if the channel
    numbers are equal, whatever the annotations and the units, and no column
    name is "Time_seconds": no channel of a file takes the place of another
    column of the table. *)
Theorem column_names_do_not_collide (ch ch' : Z) (a u a' u' : string) :
  0 <= ch -> 0 <= ch' ->
  (column_name ch a u = column_name ch' a' u' -> ch = ch') /\
  column_name ch a u <> "Time_seconds"%string.
Proof.
  intros Hch Hch'. split.
  - apply column_name_inj; assumption.
  - apply column_names_never_time.
Qed.

Lemma column_names_do_not_collide_witness :
  (column_name 1 "Ia" "mA" = column_name 2 "Vb" "V" -> 1 = 2) /\
  column_name 1 "Ia" "mA" <> "Time_seconds"%string.
Proof.
  apply (column_names_do_not_collide 1 2 "Ia" "mA" "Vb" "V"); lia.
Defined.

(** ** The table of [convert_windaq_direct] *)




(** X10. A recording without one complete scan, that is with
    [int(nSample) = 0], decodes but is not converted: reading the first
    element of its empty time axis raises [IndexError]. *)
Theorem conversion_of_empty_recording (env : environment) (buf : bytes)
    (w : windaq) (m : Z) :
  decode env buf = Ok w ->
  int_of_float (nSample (head w)) = Ok m ->
  m <= 0 ->
  convert_windaq_direct env buf = Raise IndexError.
Proof.
  intros H Hm Hle. unfold convert_windaq_direct.
  rewrite H. cbn [bind]. rewrite Hm. cbn [bind].
  unfold time. rewrite Hm. cbn [bind].
  unfold arange. replace (Z.to_nat m) with 0%nat by lia.
  reflexivity.
Qed.

Lemma conversion_of_empty_recording_witness :
  convert_windaq_direct utc (minimal_file 1 0) = Raise IndexError.
Proof.
  assert (E : exists w, decode utc (minimal_file 1 0) = Ok w)
    by (vm_compute; eexists; reflexivity).
  destruct E as [w E].
  apply (conversion_of_empty_recording utc (minimal_file 1 0) w 0 E).
  - by_decoding E. reflexivity.
  - lia.
Defined.


